(** * Cost projection engine of the journey cost visualizer

    A shallow embedding of the computational part of
    [src/components/CostAnalysisChart.js]: the utility functions
    [calculateMonthlyCost], [validateHours] and [predictFutureHours], the
    catalog [SPELL_OPTIONS], and the component's closures
    [generateSpellData], [generateBaselineData], [calculateScenarioSavings],
    [getRecommendedScenario], [addSpell], [removeSpell] and [updateSpell].

    JavaScript numbers are modelled as rationals extended with the three
    special values of the Number type ([Infinity], [-Infinity], [NaN]).
    The functions are embedded twice.  The first embedding computes on
    finite values exactly and takes arrays as dense lists; it carries the
    properties in which no rounding takes part.  The second one, the
    module [F64], rounds every result to binary64 and lets arrays have
    holes; it carries the properties that depend on either.  The sign of
    zero is not modelled. *)

From Stdlib Require Import ZArith QArith Qabs Qround Qminmax Qreduction Lia Lqa.
From stdpp Require Import base option list strings pretty.

Set Warnings "-register-all".
Local Open Scope Z_scope.

(** ** JavaScript numbers *)

Module JS.

Inductive number : Type :=
| Fin (q : Q)
| PInf
| NInf
| NaN.

Definition of_Z (z : Z) : number := Fin (inject_Z z).
Definition of_nat (n : nat) : number := of_Z (Z.of_nat n).

Definition neg (x : number) : number :=
  match x with
  | Fin a => Fin (- a)
  | PInf => NInf
  | NInf => PInf
  | NaN => NaN
  end.

Definition add (x y : number) : number :=
  match x, y with
  | NaN, _ | _, NaN => NaN
  | Fin a, Fin b => Fin (a + b)
  | PInf, NInf | NInf, PInf => NaN
  | PInf, _ | _, PInf => PInf
  | NInf, _ | _, NInf => NInf
  end.

Definition sub (x y : number) : number := add x (neg y).

(** An infinity times a finite value takes the sign of the product; times
    zero it is [NaN]. *)
Definition scale_inf (positive : bool) (a : Q) : number :=
  match (a ?= 0)%Q with
  | Gt => if positive then PInf else NInf
  | Lt => if positive then NInf else PInf
  | Eq => NaN
  end.

Definition mul (x y : number) : number :=
  match x, y with
  | NaN, _ | _, NaN => NaN
  | Fin a, Fin b => Fin (a * b)
  | Fin a, PInf | PInf, Fin a => scale_inf true a
  | Fin a, NInf | NInf, Fin a => scale_inf false a
  | PInf, PInf | NInf, NInf => PInf
  | PInf, NInf | NInf, PInf => NInf
  end.

(** Division; a zero divisor is the positive zero, so a finite non-zero
    dividend gives the infinity of its own sign and [0 / 0] is [NaN]. *)
Definition div (x y : number) : number :=
  match x, y with
  | NaN, _ | _, NaN => NaN
  | Fin a, Fin b =>
      match (b ?= 0)%Q with
      | Eq => match (a ?= 0)%Q with
              | Gt => PInf
              | Lt => NInf
              | Eq => NaN
              end
      | _ => Fin (a / b)
      end
  | Fin _, PInf | Fin _, NInf => Fin 0
  | PInf, Fin b => match (b ?= 0)%Q with Lt => NInf | _ => PInf end
  | NInf, Fin b => match (b ?= 0)%Q with Lt => PInf | _ => NInf end
  | PInf, PInf | PInf, NInf | NInf, PInf | NInf, NInf => NaN
  end.

(** [x >= y] and [x > y] on numbers: every comparison with [NaN] is
    false. *)
Definition ge (x y : number) : bool :=
  match x, y with
  | NaN, _ | _, NaN => false
  | Fin a, Fin b => Qle_bool b a
  | PInf, _ => true
  | _, NInf => true
  | _, PInf => false
  | NInf, _ => false
  end.

Definition gt (x y : number) : bool :=
  match x, y with
  | NaN, _ | _, NaN => false
  | Fin a, Fin b => negb (Qle_bool a b)
  | PInf, PInf => false
  | PInf, _ => true
  | NInf, _ => false
  | _, NInf => true
  | _, PInf => false
  end.

(** [Math.max(x, y)]: [NaN] if either argument is, else the larger. *)
Definition Math_max (x y : number) : number :=
  match x, y with
  | NaN, _ | _, NaN => NaN
  | _, _ => if ge x y then x else y
  end.

(** [Math.round(x)]: the nearest integer, a tie going to the larger one,
    that is [floor (x + 1/2)]. *)
Definition Math_round (x : number) : number :=
  match x with
  | Fin a => of_Z (Qfloor (a + (1 # 2)))
  | _ => x
  end.

Definition is_finite (x : number) : Prop :=
  match x with Fin _ => True | _ => False end.

(** [0 <= x] for a number that is not [NaN]. *)
Definition nonneg (x : number) : Prop :=
  match x with
  | Fin a => (0 <= a)%Q
  | PInf => True
  | NInf | NaN => False
  end.

(** Equality of the denoted numbers (rationals up to [Qeq]). *)
Definition num_eq (x y : number) : Prop :=
  match x, y with
  | Fin a, Fin b => (a == b)%Q
  | PInf, PInf | NInf, NInf | NaN, NaN => True
  | _, _ => False
  end.

End JS.

Import JS.

Declare Scope js_scope.
Delimit Scope js_scope with js.
Bind Scope js_scope with number.
Infix "+" := add : js_scope.
Infix "-" := sub : js_scope.
Infix "*" := mul : js_scope.
Infix "/" := div : js_scope.
Notation "x >=? y" := (ge x y) (at level 70) : js_scope.
Notation "x >? y" := (gt x y) (at level 70) : js_scope.
Coercion of_Z : Z >-> number.

(** ** Constants *)

Definition INITIAL_DRIVING_HOURS : list number :=
  [of_Z 23; of_Z 48; of_Z 43; of_Z 29; of_Z 50; of_Z 108].

Definition BASE_COST_PER_HOUR : number := of_Z 100.

Definition MONTHS : list string :=
  ["January"; "February"; "March"; "April"; "May"; "June"; "July";
   "August"; "September"; "October"; "November"; "December"]%string.

(** ** Utility functions *)

(** [calculateMonthlyCost(hours, costPerHour = BASE_COST_PER_HOUR)]; the
    second argument is [None] at the call sites that leave it out. *)
Definition calculateMonthlyCost (hours : number) (costPerHour : option number)
  : number :=
  Math_max (of_Z 0) (hours * default BASE_COST_PER_HOUR costPerHour)%js.

(** ** JavaScript values and exceptions *)

(** The values a caller can pass where the code expects the hours array.
    [VObject] stands for any object that is not an array; arrays are dense
    (holes are not modelled). *)
Inductive value : Type :=
| VUndefined
| VNull
| VBool (b : bool)
| VNumber (n : number)
| VString (s : string)
| VArray (elements : list value)
| VObject.

(** [new Error(message)]. *)
Record Error : Type := mkError { message : string }.

(** A computation that returns a value or throws. *)
Inductive result (A : Type) : Type :=
| Return (a : A)
| Throw (e : Error).
Arguments Return {A} a.
Arguments Throw {A} e.

Global Instance result_ret : MRet result := @Return.
Global Instance result_bind : MBind result := fun A B f m =>
  match m with
  | Return a => f a
  | Throw e => Throw e
  end.

(** [Array.isArray(v)]. *)
Definition Array_isArray (v : value) : bool :=
  match v with VArray _ => true | _ => false end.

(** The elements of an array; other values have none. *)
Definition elements_of (v : value) : list value :=
  match v with VArray l => l | _ => [] end.

(** The numeric operand a value gives to [*].  Only numbers reach the
    arithmetic of [predictFutureHours] (see [validateHours]); the coercion
    of strings and objects is not modelled and stands as [NaN]. *)
Definition ToNumber (v : value) : number :=
  match v with
  | VNumber n => n
  | VNull => of_Z 0
  | VBool b => if b then of_Z 1 else of_Z 0
  | VUndefined | VString _ | VArray _ | VObject => NaN
  end.

(** [typeof hour === "number" && hour >= 0]: the right operand is only
    evaluated on a number. *)
Definition is_number_ge0 (hour : value) : bool :=
  match hour with
  | VNumber n => (n >=? of_Z 0)%js
  | _ => false
  end.

(** [arr.reduce((acc, x, index) => ..., init)]. *)
Fixpoint reduce_from {A B : Type} (f : B -> A -> nat -> B) (index : nat)
    (arr : list A) (acc : B) : B :=
  match arr with
  | [] => acc
  | x :: rest => reduce_from f (S index) rest (f acc x index)
  end.

Definition reduce {A B : Type} (f : B -> A -> nat -> B) (arr : list A)
    (init : B) : B :=
  reduce_from f 0 arr init.

(** [arr.slice(-n)]: the last [n] elements, the whole array if it is
    shorter. *)
Definition slice_last {A : Type} (n : nat) (arr : list A) : list A :=
  drop (length arr - n) arr.

Definition validateHours (hours : value) : result bool :=
  if negb (Array_isArray hours) || (length (elements_of hours) =? 0)%nat
  then Throw (mkError "Invalid driving hours data")
  else Return (forallb is_number_ge0 (elements_of hours)).

Definition predictFutureHours (historicalHours : value) : result number :=
  valid ← validateHours historicalHours;
  if negb valid then Throw (mkError "Invalid hours data")
  else
    let weightedAverage :=
      (reduce (fun sum hour index =>
                 let weight := of_nat (index + 1) in
                 sum + ToNumber hour * weight)
              (slice_last 3 (elements_of historicalHours)) (of_Z 0)
       / reduce (fun sum (_ : value) index => sum + of_nat (index + 1))
                (slice_last 3 (elements_of historicalHours)) (of_Z 0))%js in
    Return (Math_round weightedAverage).

(** An array of numbers as a value. *)
Definition array_of (hours : list number) : value := VArray (VNumber <$> hours).

(** A run of [n] zero digits, the left padding of [toFixed]. *)
Fixpoint zeros (n : nat) : string :=
  match n with
  | O => ""
  | S n' => "0" +:+ zeros n'
  end.

(** [x.toFixed(fractionDigits)]: the sign, then the decimal digits of the
    integer nearest to [|x| * 10^fractionDigits] (a tie going up) with the
    point inserted.  Magnitudes of [1e21] and above, which JavaScript
    prints in exponent form, are outside the model. *)
Definition toFixed (x : number) (fractionDigits : nat) : string :=
  match x with
  | NaN => "NaN"
  | PInf => "Infinity"
  | NInf => "-Infinity"
  | Fin q =>
      let s := if negb (Qle_bool 0 q) then "-" else "" in
      let n := Qfloor (Qabs q * inject_Z (10 ^ Z.of_nat fractionDigits)
                       + (1 # 2)) in
      let m := pretty n in
      if (fractionDigits =? 0)%nat then s +:+ m
      else
        let m := zeros (fractionDigits + 1 - String.length m) +:+ m in
        let k := (String.length m - fractionDigits)%nat in
        s +:+ String.substring 0 k m +:+ "." +:+ String.substring k fractionDigits m
  end.

(** ** The catalog of spells *)

Record Spell : Type := mkSpell {
  label : string;
  tireCost : number;
  engineCost : number;
  hourlyRate : number;
  description : string;
  efficiency : number;
}.

Inductive SpellKey : Type := NONE | TIRE | ENGINE | BOTH.

Definition SPELL_OPTIONS (key : SpellKey) : Spell :=
  match key with
  | NONE =>
      {| label := "No Spell"; tireCost := of_Z 0; engineCost := of_Z 0;
         hourlyRate := BASE_COST_PER_HOUR;
         description := "Continue journey with original car efficiency";
         efficiency := of_Z 1 |}
  | TIRE =>
      {| label := "Tire Spell"; tireCost := of_Z 10; engineCost := of_Z 0;
         hourlyRate := of_Z 93;
         description := "Upgrade tires for slightly improved efficiency";
         efficiency := Fin (107 # 100) |}
  | ENGINE =>
      {| label := "Engine Spell"; tireCost := of_Z 0; engineCost := of_Z 32;
         hourlyRate := of_Z 83;
         description := "Upgrade engine for significant efficiency improvement";
         efficiency := Fin (117 # 100) |}
  | BOTH =>
      {| label := "Both Spells"; tireCost := of_Z 10; engineCost := of_Z 32;
         hourlyRate := of_Z 83;
         description := "Comprehensive magical upgrade for maximum efficiency";
         efficiency := Fin (125 # 100) |}
  end.

(** An entry of the [selectedSpells] state: [{ spell, month, id }].  The
    month is an integral month index and the identifier the integral time
    value of [Date.now()]. *)
Record SpellConfig : Type := mkSpellConfig {
  spell : Spell;
  month : Z;
  id : Z;
}.

(** The object [calculateScenarioSavings] returns. *)
Record Analysis : Type := mkAnalysis {
  savings : number;
  spellConfig : SpellConfig;
  roi : number;
}.

(** The object [getRecommendedScenario] holds: the best analysis spread
    together with its description and the recommendation text. *)
Record Recommended : Type := mkRecommended {
  best : Analysis;
  best_description : string;
  recommendation : string;
}.

(** ** The component's closures *)

Section Component.

(** The functions below close over the module constant
    [INITIAL_DRIVING_HOURS] and the memoised [predictedHours]; both are
    abstracted here so that properties can be stated for every series
    and every prediction. *)
Variable hours : list number.
Variable predictedHours : number.

(** [hours[index]]: reading past the end gives [undefined], which the
    multiplication in [calculateMonthlyCost] turns into [NaN]. *)
Definition hours_at (index : nat) : number :=
  match hours !! index with
  | Some h => h
  | None => NaN
  end.

Definition generateSpellData (spell : Spell) (spellStartMonth : Z)
  : list number :=
  imap (fun index (_ : string) =>
    if (index <? 6)%nat then calculateMonthlyCost (hours_at index) None
    else if Z.of_nat index <? spellStartMonth
    then calculateMonthlyCost predictedHours None
    else
      let spellTotalCost := (tireCost spell + engineCost spell)%js in
      let monthlyCost :=
        calculateMonthlyCost predictedHours (Some (hourlyRate spell)) in
      if Z.of_nat index =? spellStartMonth
      then (spellTotalCost + monthlyCost)%js
      else monthlyCost) MONTHS.

(** The body of the [try]; nothing in it throws, so the [catch] branch
    (an array of twelve zeros) is never taken. *)
Definition generateBaselineData : list number :=
  imap (fun index (_ : string) =>
    if (index <? 6)%nat then calculateMonthlyCost (hours_at index) None
    else calculateMonthlyCost predictedHours None) MONTHS.

(** [costs.reduce((sum, cost) => sum + cost, 0)]. *)
Definition total (costs : list number) : number :=
  reduce (fun sum cost (_ : nat) => (sum + cost)%js) costs (of_Z 0).

Definition calculateScenarioSavings (spellConfig : SpellConfig) : Analysis :=
  let baselineCost := total generateBaselineData in
  let spellCost :=
    total (generateSpellData (spell spellConfig) (month spellConfig)) in
  {| savings := (baselineCost - spellCost)%js;
     spellConfig := spellConfig;
     roi := ((baselineCost - spellCost)
             / (tireCost (spell spellConfig) + engineCost (spell spellConfig))
             * of_Z 100)%js |}.

(** [MONTHS[month]] inside a template string: a month that is not an
    index of [MONTHS] reads [undefined]. *)
Definition month_name (month : Z) : string :=
  if month <? 0 then "undefined"
  else default "undefined" (MONTHS !! Z.to_nat month).

(** The entries of [scenarioAnalysis]: an analysis and its description. *)
Definition describe (spellConfig : SpellConfig) : Analysis * string :=
  (calculateScenarioSavings spellConfig,
   label (spell spellConfig) +:+ " in " +:+ month_name (month spellConfig)).

Definition getRecommendedScenario (selectedSpells : list SpellConfig)
  : option Recommended :=
  match describe <$> selectedSpells with
  | [] => None
  | (first :: _) as scenarioAnalysis =>
      let bestScenario :=
        reduce (fun best current (_ : nat) =>
                  if (savings (fst current) >? savings (fst best))%js
                  then current else best)
               scenarioAnalysis first in
      Some {| best := fst bestScenario;
              best_description := snd bestScenario;
              recommendation :=
                if (savings (fst bestScenario) >? of_Z 0)%js
                then snd bestScenario
                     +:+ " provides the highest savings of "
                     +:+ toFixed (savings (fst bestScenario)) 2
                     +:+ " gold coins with an ROI of "
                     +:+ toFixed (roi (fst bestScenario)) 1 +:+ "%"
                else "None of the current scenarios provide cost savings." |}
  end.

End Component.

(** [predictedHours] of the component: the prediction over the constant
    series, [0] if it throws (the error message the component then sets is
    not modelled). *)
Definition predictedHours : number :=
  match predictFutureHours (array_of INITIAL_DRIVING_HOURS) with
  | Return p => p
  | Throw _ => of_Z 0
  end.

(** ** The [selectedSpells] state and its updaters *)

(** [addSpell]; [now] is the value of [Date.now()]. *)
Definition addSpell (now : Z) (prev : list SpellConfig) : list SpellConfig :=
  prev ++ [ {| spell := SPELL_OPTIONS NONE; month := 6; id := now |} ].

Definition removeSpell (spellId : Z) (prev : list SpellConfig)
  : list SpellConfig :=
  filter (fun spell => id spell ≠ spellId) prev.

Definition updateSpell (id' : Z) (newSpell : Spell) (newMonth : Z)
    (prev : list SpellConfig) : list SpellConfig :=
  (fun spell =>
     if bool_decide (id spell = id')
     then {| spell := newSpell; month := newMonth; id := id spell |}
     else spell) <$> prev.

(** ** The summary figures and the chart datasets *)

Section Summary.

(** As in [Component], the constant hours and the memoised prediction the
    closures capture. *)
Variable hours : list number.
Variable predictedHours : number.

Definition totalJourneyCost (selectedSpells : list SpellConfig) : number :=
  reduce (fun sum spellConfig (_ : nat) =>
            (sum + total (generateSpellData hours predictedHours
                            (spell spellConfig) (month spellConfig)))%js)
         selectedSpells (of_Z 0).

(** [costDifference]; [recommended] is the value of
    [getRecommendedScenario], [null] being [None]. *)
Definition costDifference (selectedSpells : list SpellConfig) : number :=
  let baselineTotal := total (generateBaselineData hours predictedHours) in
  match getRecommendedScenario hours predictedHours selectedSpells with
  | None => of_Z 0
  | Some recommended =>
      let recommendedSpellCost :=
        total (generateSpellData hours predictedHours
                 (spell (spellConfig (best recommended)))
                 (month (spellConfig (best recommended)))) in
      (baselineTotal - recommendedSpellCost)%js
  end.

End Summary.

(** An entry of the [colors] array of the chart effect. *)
Record Color : Type := mkColor {
  border : string;
  background : string;
}.

Definition colors : list Color :=
  [ {| border := "rgb(75, 192, 192)"; background := "rgba(75, 192, 192, 0.2)" |};
    {| border := "rgb(255, 99, 132)"; background := "rgba(255, 99, 132, 0.2)" |};
    {| border := "rgb(255, 159, 64)"; background := "rgba(255, 159, 64, 0.2)" |};
    {| border := "rgb(153, 102, 255)"; background := "rgba(153, 102, 255, 0.2)" |};
    {| border := "rgb(54, 162, 235)"; background := "rgba(54, 162, 235, 0.2)" |} ].

(** A dataset handed to the chart. *)
Record Dataset : Type := mkDataset {
  ds_label : string;
  data : list number;
  borderColor : string;
  backgroundColor : string;
  tension : number;
  borderWidth : number;
  pointRadius : number;
  pointBackgroundColor : string;
}.

(** [colors[i]] for an index already reduced modulo [colors.length]; the
    fallback stands for a read that cannot happen. *)
Definition color_at (i : nat) : Color :=
  default {| border := "undefined"; background := "undefined" |} (colors !! i).

(** The [datasets] array of the chart effect: the baseline followed by one
    dataset per selected scenario. *)
Definition datasets (hours : list number) (predictedHours : number)
    (selectedSpells : list SpellConfig) : list Dataset :=
  {| ds_label := "Without Spells";
     data := generateBaselineData hours predictedHours;
     borderColor := border (color_at 0);
     backgroundColor := background (color_at 0);
     tension := Fin (1 # 10);
     borderWidth := of_Z 2;
     pointRadius := of_Z 5;
     pointBackgroundColor := border (color_at 0) |}
  :: imap (fun index spellConfig =>
       {| ds_label := "With " +:+ label (spell spellConfig) +:+ " ("
                      +:+ month_name (month spellConfig) +:+ ")";
          data := generateSpellData hours predictedHours
                    (spell spellConfig) (month spellConfig);
          borderColor := border (color_at ((index + 1) mod length colors));
          backgroundColor :=
            background (color_at ((index + 1) mod length colors));
          tension := Fin (1 # 10);
          borderWidth := of_Z 2;
          pointRadius := of_Z 5;
          pointBackgroundColor :=
            border (color_at ((index + 1) mod length colors)) |})
       selectedSpells.

(** ** The risk assessment of the earlier version of the component *)

(** The earlier version of the component gives every spell a [risk] and
    reports the largest one among the selected scenarios. *)
Module Earlier.

Record Spell : Type := mkSpell {
  label : string;
  tireCost : number;
  engineCost : number;
  hourlyRate : number;
  description : string;
  efficiency : number;
  risk : number;
}.

Definition SPELL_OPTIONS (key : SpellKey) : Spell :=
  match key with
  | NONE =>
      {| label := "No Spell"; tireCost := of_Z 0; engineCost := of_Z 0;
         hourlyRate := BASE_COST_PER_HOUR;
         description := "Continue journey with original car efficiency";
         efficiency := of_Z 1; risk := of_Z 0 |}
  | TIRE =>
      {| label := "Tire Spell"; tireCost := of_Z 10; engineCost := of_Z 0;
         hourlyRate := of_Z 93;
         description := "Upgrade tires for slightly improved efficiency";
         efficiency := Fin (107 # 100); risk := Fin (1 # 10) |}
  | ENGINE =>
      {| label := "Engine Spell"; tireCost := of_Z 0; engineCost := of_Z 32;
         hourlyRate := of_Z 83;
         description := "Upgrade engine for significant efficiency improvement";
         efficiency := Fin (117 # 100); risk := Fin (2 # 10) |}
  | BOTH =>
      {| label := "Both Spells"; tireCost := of_Z 10; engineCost := of_Z 32;
         hourlyRate := of_Z 83;
         description := "Comprehensive magical upgrade for maximum efficiency";
         efficiency := Fin (125 # 100); risk := Fin (3 # 10) |}
  end.

Record SpellConfig : Type := mkSpellConfig {
  spell : Spell;
  month : Z;
  id : Z;
}.

(** [x === y] and [x <= y] on numbers; both are false on [NaN]. *)
Definition strict_eq (x y : number) : bool :=
  match x, y with
  | Fin a, Fin b => Qeq_bool a b
  | PInf, PInf | NInf, NInf => true
  | _, _ => false
  end.

Definition le (x y : number) : bool := (y >=? x)%js.

Definition getRiskAssessment (selectedSpells : list SpellConfig) : string :=
  let riskLevel :=
    reduce (fun maxRisk spellConfig (_ : nat) =>
              Math_max maxRisk (risk (spell spellConfig)))
           selectedSpells (of_Z 0) in
  if strict_eq riskLevel (of_Z 0) then "No Additional Risk"
  else if le riskLevel (Fin (1 # 10)) then "Low Risk"
  else if le riskLevel (Fin (2 # 10)) then "Medium Risk"
  else "High Risk".

End Earlier.

(** The dense [reduce] under a name that stays visible inside [F64]. *)
Definition dense_reduce {A B : Type} := @reduce A B.

(** ** The component in binary64 arithmetic, over arrays with holes *)

(** The definitions above compute with exact rationals and dense arrays.
    [F64] embeds the same functions with every sum, difference, product
    and quotient rounded to the nearest binary64 value, as the Number type
    does, and with arrays that may have holes, which [every] and [reduce]
    skip.  The sign of zero is not modelled. *)
Module F64.

(** [2^e] for an integer [e]. *)
Definition pow2 (e : Z) : Q :=
  match e with
  | Z0 => 1
  | Zpos p => inject_Z (Zpos (2 ^ p))
  | Zneg p => 1 # (2 ^ p)
  end.

(** The exponent [e] with [2^e <= q < 2^(e+1)], for [q > 0]. *)
Definition binade (q : Q) : Z :=
  let e := Z.log2 (Qnum q) - Z.log2 (Zpos (Qden q)) in
  if Qle_bool (pow2 e) q then e else e - 1.

(** The integer nearest to [q], a tie going to the even one. *)
Definition nearest_even (q : Q) : Z :=
  let f := Qfloor q in
  match (q - inject_Z f ?= 1 # 2)%Q with
  | Lt => f
  | Gt => f + 1
  | Eq => if Z.even f then f else f + 1
  end.

(** Rounding of [q > 0] to binary64: 53 significant bits, exponents from
    -1022 (below it the spacing stays [2^-1074]) and overflow to
    [Infinity] from [2^1024] on. *)
Definition round_pos (q : Q) : number :=
  let e := Z.max (binade q) (-1022) in
  let ulp := pow2 (e - 52) in
  let r := (inject_Z (nearest_even (q / ulp)) * ulp)%Q in
  if Qle_bool (pow2 1024) r then PInf else Fin (Qred r).

Definition round64 (q : Q) : number :=
  match (q ?= 0)%Q with
  | Eq => Fin 0
  | Gt => round_pos q
  | Lt => neg (round_pos (- q))
  end.

(** The result of an operation: the exact result rounded. *)
Definition rnd (x : number) : number :=
  match x with
  | Fin q => round64 q
  | _ => x
  end.

Definition add (x y : number) : number := rnd (JS.add x y).
Definition sub (x y : number) : number := rnd (JS.sub x y).
Definition mul (x y : number) : number := rnd (JS.mul x y).
Definition div (x y : number) : number := rnd (JS.div x y).

(** A decimal literal of the source. *)
Definition lit (q : Q) : number := round64 q.

Definition calculateMonthlyCost (hours : number) (costPerHour : option number)
  : number :=
  Math_max (of_Z 0) (mul hours (default BASE_COST_PER_HOUR costPerHour)).

(** Values; an array element is [None] where the array has a hole. *)
Inductive value : Type :=
| VUndefined
| VNull
| VBool (b : bool)
| VNumber (n : number)
| VString (s : string)
| VArray (elements : list (option value))
| VObject.

Definition Array_isArray (v : value) : bool :=
  match v with VArray _ => true | _ => false end.

Definition elements_of (v : value) : list (option value) :=
  match v with VArray l => l | _ => [] end.

(** As [ToNumber] above: only numbers reach the arithmetic. *)
Definition ToNumber (v : value) : number :=
  match v with
  | VNumber n => n
  | VNull => of_Z 0
  | VBool b => if b then of_Z 1 else of_Z 0
  | VUndefined | VString _ | VArray _ | VObject => NaN
  end.

Definition is_number_ge0 (hour : value) : bool :=
  match hour with
  | VNumber n => (n >=? of_Z 0)%js
  | _ => false
  end.

(** [arr.every(f)]: holes are not visited. *)
Definition every {A : Type} (f : A -> bool) (arr : list (option A)) : bool :=
  forallb (fun e => match e with Some x => f x | None => true end) arr.

(** [arr.reduce(f, init)]: holes are not visited, but they count in the
    index of the elements after them. *)
Fixpoint reduce_from {A B : Type} (f : B -> A -> nat -> B) (index : nat)
    (arr : list (option A)) (acc : B) : B :=
  match arr with
  | [] => acc
  | None :: rest => reduce_from f (S index) rest acc
  | Some x :: rest => reduce_from f (S index) rest (f acc x index)
  end.

Definition reduce {A B : Type} (f : B -> A -> nat -> B)
    (arr : list (option A)) (init : B) : B :=
  reduce_from f 0 arr init.

Definition validateHours (hours : value) : result bool :=
  if negb (Array_isArray hours) || (length (elements_of hours) =? 0)%nat
  then Throw (mkError "Invalid driving hours data")
  else Return (every is_number_ge0 (elements_of hours)).

Definition predictFutureHours (historicalHours : value) : result number :=
  valid ← validateHours historicalHours;
  if negb valid then Throw (mkError "Invalid hours data")
  else
    let weightedAverage :=
      div (reduce (fun sum hour index =>
                     let weight := of_nat (index + 1) in
                     add sum (mul (ToNumber hour) weight))
                  (slice_last 3 (elements_of historicalHours)) (of_Z 0))
          (reduce (fun sum (_ : value) index => add sum (of_nat (index + 1)))
                  (slice_last 3 (elements_of historicalHours)) (of_Z 0)) in
    Return (Math_round weightedAverage).

(** An array without holes, and an array of numbers. *)
Definition dense (l : list value) : value := VArray (Some <$> l).
Definition array_of (hours : list number) : value := dense (VNumber <$> hours).

Section Component.

Variable hours : list number.
Variable predictedHours : number.

Definition generateSpellData (spell : Spell) (spellStartMonth : Z)
  : list number :=
  imap (fun index (_ : string) =>
    if (index <? 6)%nat then calculateMonthlyCost (hours_at hours index) None
    else if Z.of_nat index <? spellStartMonth
    then calculateMonthlyCost predictedHours None
    else
      let spellTotalCost := add (tireCost spell) (engineCost spell) in
      let monthlyCost :=
        calculateMonthlyCost predictedHours (Some (hourlyRate spell)) in
      if Z.of_nat index =? spellStartMonth
      then add spellTotalCost monthlyCost
      else monthlyCost) MONTHS.

Definition generateBaselineData : list number :=
  imap (fun index (_ : string) =>
    if (index <? 6)%nat then calculateMonthlyCost (hours_at hours index) None
    else calculateMonthlyCost predictedHours None) MONTHS.

(** [costs.reduce((sum, cost) => sum + cost, 0)] over a computed series,
    which has no holes. *)
Definition total (costs : list number) : number :=
  dense_reduce (fun sum cost (_ : nat) => add sum cost) costs (of_Z 0).

Definition calculateScenarioSavings (spellConfig : SpellConfig) : Analysis :=
  let baselineCost := total generateBaselineData in
  let spellCost :=
    total (generateSpellData (spell spellConfig) (month spellConfig)) in
  {| savings := sub baselineCost spellCost;
     spellConfig := spellConfig;
     roi := mul (div (sub baselineCost spellCost)
                     (add (tireCost (spell spellConfig))
                          (engineCost (spell spellConfig))))
                (of_Z 100) |}.

Definition describe (spellConfig : SpellConfig) : Analysis * string :=
  (calculateScenarioSavings spellConfig,
   label (spell spellConfig) +:+ " in " +:+ month_name (month spellConfig)).

Definition getRecommendedScenario (selectedSpells : list SpellConfig)
  : option Recommended :=
  match describe <$> selectedSpells with
  | [] => None
  | (first :: _) as scenarioAnalysis =>
      let bestScenario :=
        dense_reduce (fun best current (_ : nat) =>
                      if (savings (fst current) >? savings (fst best))%js
                      then current else best)
                   scenarioAnalysis first in
      Some {| best := fst bestScenario;
              best_description := snd bestScenario;
              recommendation :=
                if (savings (fst bestScenario) >? of_Z 0)%js
                then snd bestScenario
                     +:+ " provides the highest savings of "
                     +:+ toFixed (savings (fst bestScenario)) 2
                     +:+ " gold coins with an ROI of "
                     +:+ toFixed (roi (fst bestScenario)) 1 +:+ "%"
                else "None of the current scenarios provide cost savings." |}
  end.

Definition costDifference (selectedSpells : list SpellConfig) : number :=
  let baselineTotal := total generateBaselineData in
  match getRecommendedScenario selectedSpells with
  | None => of_Z 0
  | Some recommended =>
      let recommendedSpellCost :=
        total (generateSpellData (spell (spellConfig (best recommended)))
                 (month (spellConfig (best recommended)))) in
      sub baselineTotal recommendedSpellCost
  end.

End Component.

(** [predictedHours] of the component. *)
Definition predictedHours : number :=
  match predictFutureHours (array_of INITIAL_DRIVING_HOURS) with
  | Return p => p
  | Throw _ => of_Z 0
  end.

End F64.

(** ** Notions used to state the properties *)

(** The forecast as the specification words it: the last three values
    (all of them if there are fewer), weighted 1, 2, ... from the start of
    that window, the weighted sum divided by the sum of the weights. *)
Definition last_three (series : list Q) : list Q :=
  reverse (take 3 (reverse series)).

Fixpoint weighted_sum (weight : Z) (window : list Q) : Q :=
  match window with
  | [] => 0
  | v :: rest => v * inject_Z weight + weighted_sum (weight + 1) rest
  end.

Fixpoint weight_total (weight : Z) (window : list Q) : Q :=
  match window with
  | [] => 0
  | _ :: rest => inject_Z weight + weight_total (weight + 1) rest
  end.

Definition weighted_average (window : list Q) : Q :=
  weighted_sum 1 window / weight_total 1 window.

(** A spell whose costs and rate are finite numbers, as in the catalog. *)
Definition finite_spell (s : Spell) : Prop :=
  is_finite (tireCost s) /\ is_finite (engineCost s) /\ is_finite (hourlyRate s).


(** The catalog keys by increasing risk, and the assessment the earlier
    version shows when a key is the riskiest one selected. *)
Definition risk_rank (key : SpellKey) : nat :=
  match key with
  | NONE => 0
  | TIRE => 1
  | ENGINE => 2
  | BOTH => 3
  end.

Definition risk_text (key : SpellKey) : string :=
  match key with
  | NONE => "No Additional Risk"
  | TIRE => "Low Risk"
  | ENGINE => "Medium Risk"
  | BOTH => "High Risk"
  end.

(** The weighted average as the code accumulates it in binary64: from
    the start of the window, each product and each running sum rounded,
    then the two sums divided and the quotient rounded. *)
Fixpoint weighted_sum64 (weight : Z) (sum : number) (window : list Q)
  : number :=
  match window with
  | [] => sum
  | v :: rest =>
      weighted_sum64 (weight + 1)
        (F64.add sum (F64.mul (Fin v) (of_Z weight))) rest
  end.

Fixpoint weight_total64 (weight : Z) (sum : number) (window : list Q)
  : number :=
  match window with
  | [] => sum
  | _ :: rest => weight_total64 (weight + 1) (F64.add sum (of_Z weight)) rest
  end.

Definition weighted_average64 (window : list Q) : number :=
  F64.div (weighted_sum64 1 (of_Z 0) window)
          (weight_total64 1 (of_Z 0) window).

(** Numbers that are integers from 0 to a bound: on them, and within the
    bounds used below, the binary64 operations are exact. *)
Definition int_upto (bound : Z) (x : number) : Prop :=
  exists n : Z, x = of_Z n /\ 0 <= n <= bound.

Definition small (x : number) : Prop := int_upto 1000000 x.

Definition small_spell (s : Spell) : Prop :=
  small (tireCost s) /\ small (engineCost s) /\ small (hourlyRate s).

(** * Properties *)

(** ** Proof tactics *)

(** Discharges the month tests of a series entry once the position of the
    index relative to the activation month is known. *)
Ltac month_tests :=
  repeat match goal with
  | |- context [(?i <? 6)%nat] =>
      destruct (Nat.ltb_spec i 6); try lia
  | |- context [Z.of_nat ?i <? ?m] =>
      destruct (Z.ltb_spec (Z.of_nat i) m); try lia
  | |- context [Z.of_nat ?i =? ?m] =>
      destruct (Z.eqb_spec (Z.of_nat i) m); try lia
  end.


(** ** Arithmetic of the number model *)

Lemma Qplus_0_l_eq (q : Q) : (0 + q)%Q = q.
Proof.
  destruct q as [n d]. unfold Qplus. cbn [Qnum Qden].
  rewrite Z.mul_0_l, Z.add_0_l, Z.mul_1_r. reflexivity.
Qed.

Lemma add_0_l (x : number) : (of_Z 0 + x)%js = x.
Proof.
  destruct x as [q| | |]; try reflexivity.
  unfold of_Z, add. f_equal. apply Qplus_0_l_eq.
Qed.

Lemma Qle_bool_false (a b : Q) : Qle_bool a b = false <-> (b < a)%Q.
Proof.
  split.
  - intros H. apply Qnot_le_lt. intros Hle.
    apply Qle_bool_iff in Hle. congruence.
  - intros H. destruct (Qle_bool a b) eqn:E; [|reflexivity].
    apply Qle_bool_iff in E. exfalso. eapply Qlt_not_le; eassumption.
Qed.


Lemma Math_max_0_cases (y : number) :
  Math_max (of_Z 0) y = NaN \/ nonneg (Math_max (of_Z 0) y).
Proof.
  destruct y as [q| | |]; cbn.
  - right. destruct (Qle_bool q (inject_Z 0)) eqn:E; cbn.
    + apply Qle_refl.
    + apply Qle_bool_false in E. apply Qlt_le_weak. exact E.
  - right. exact I.
  - right. cbn. apply Qle_refl.
  - left. reflexivity.
Qed.

Lemma add_nonneg (x y : number) : nonneg x -> nonneg y -> nonneg (x + y)%js.
Proof.
  destruct x as [a| | |], y as [b| | |]; cbn; try tauto.
  intros Ha Hb. replace 0%Q with (0 + 0)%Q by reflexivity.
  apply Qplus_le_compat; assumption.
Qed.




(** A non-negative quantity at a finite positive rate costs a non-negative
    amount. *)
Lemma calculateMonthlyCost_nonneg (x : number) (r : Q) :
  nonneg x -> (0 < r)%Q -> nonneg (calculateMonthlyCost x (Some (Fin r))).
Proof.
  intros Hx Hr. unfold calculateMonthlyCost. cbn [default].
  destruct (Math_max_0_cases (x * Fin r)%js) as [H|H]; [|exact H].
  exfalso. destruct x as [a| | |]; cbn in Hx; try contradiction.
  - cbn in H. destruct (Qle_bool (a * r) (inject_Z 0)); discriminate.
  - cbn in H. unfold scale_inf in H.
    rewrite (proj1 (Qgt_alt r 0) Hr) in H. discriminate.
Qed.

(** ** Order on finite numbers *)

Lemma gt_Fin (a b : Q) : (Fin a >? Fin b)%js = true <-> (b < a)%Q.
Proof.
  cbn. rewrite negb_true_iff. apply Qle_bool_false.
Qed.

Lemma ge_Fin (a b : Q) : (Fin a >=? Fin b)%js = true <-> (b <= a)%Q.
Proof. cbn. apply Qle_bool_iff. Qed.

Lemma gt_false_ge (x y : number) :
  is_finite x -> is_finite y -> (x >? y)%js = false -> (y >=? x)%js = true.
Proof.
  destruct x as [a| | |], y as [b| | |]; cbn; try contradiction.
  intros _ _ H. apply negb_false_iff in H. exact H.
Qed.

Lemma gt_ge (x y : number) :
  is_finite x -> is_finite y -> (x >? y)%js = true -> (x >=? y)%js = true.
Proof.
  destruct x as [a| | |], y as [b| | |]; try contradiction.
  intros _ _ H. apply gt_Fin in H. apply ge_Fin. apply Qlt_le_weak. exact H.
Qed.

Lemma gt_ge_trans (x y z : number) :
  is_finite x -> is_finite y -> is_finite z ->
  (x >? y)%js = true -> (y >=? z)%js = true -> (x >? z)%js = true.
Proof.
  destruct x as [a| | |], y as [b| | |], z as [c| | |]; try contradiction.
  intros _ _ _ H1 H2. apply gt_Fin in H1. apply ge_Fin in H2.
  apply gt_Fin. eapply Qle_lt_trans; eassumption.
Qed.

Lemma ge_refl (x : number) : is_finite x -> (x >=? x)%js = true.
Proof.
  destruct x as [a| | |]; try contradiction.
  intros _. apply ge_Fin. apply Qle_refl.
Qed.

(** ** The two series, month by month *)

Lemma MONTHS_lookup (i : nat) :
  (i < 12)%nat -> exists name, MONTHS !! i = Some name.
Proof. intros H. apply lookup_lt_is_Some. exact H. Qed.

Lemma generateSpellData_lookup hours p (s : Spell) (m : Z) (i : nat) :
  (i < 12)%nat ->
  generateSpellData hours p s m !! i =
  Some (if (i <? 6)%nat then calculateMonthlyCost (hours_at hours i) None
        else if Z.of_nat i <? m then calculateMonthlyCost p None
        else if Z.of_nat i =? m
             then (tireCost s + engineCost s
                   + calculateMonthlyCost p (Some (hourlyRate s)))%js
             else calculateMonthlyCost p (Some (hourlyRate s))).
Proof.
  intros H. unfold generateSpellData. rewrite list_lookup_imap.
  destruct (MONTHS_lookup i H) as [name ->]. reflexivity.
Qed.

Lemma generateBaselineData_lookup hours p (i : nat) :
  (i < 12)%nat ->
  generateBaselineData hours p !! i =
  Some (if (i <? 6)%nat then calculateMonthlyCost (hours_at hours i) None
        else calculateMonthlyCost p None).
Proof.
  intros H. unfold generateBaselineData. rewrite list_lookup_imap.
  destruct (MONTHS_lookup i H) as [name ->]. reflexivity.
Qed.

Lemma generateSpellData_length hours p (s : Spell) (m : Z) :
  length (generateSpellData hours p s m) = 12%nat.
Proof. unfold generateSpellData. rewrite length_imap. reflexivity. Qed.

Lemma generateBaselineData_length hours p :
  length (generateBaselineData hours p) = 12%nat.
Proof. unfold generateBaselineData. rewrite length_imap. reflexivity. Qed.

Lemma hours_at_Some hours (i : nat) (x : number) :
  hours !! i = Some x -> hours_at hours i = x.
Proof. intros H. unfold hours_at. rewrite H. reflexivity. Qed.

(** ** C2: the no-spell scenario is the baseline *)

(** The activation charge of [NONE] is [0 + 0] and its rate the base rate,
    so each of its months is the baseline month, whatever the inputs. *)
Lemma no_spell_series (h : list number) (p : number) (m : Z) :
  generateSpellData h p (SPELL_OPTIONS NONE) m = generateBaselineData h p.
Proof.
  unfold generateSpellData, generateBaselineData.
  apply imap_ext. intros i name _.
  destruct (i <? 6)%nat; [reflexivity|].
  destruct (Z.of_nat i <? m); [reflexivity|].
  cbn [SPELL_OPTIONS tireCost engineCost hourlyRate].
  change (of_Z 0 + of_Z 0)%js with (of_Z 0).
  rewrite add_0_l.
  destruct (Z.of_nat i =? m); reflexivity.
Qed.

(** C2.  For every series [h] of six non-negative hours, every non-negative
    prediction [p] and every activation month [m] from 6 to 11, the series
    of the [NONE] option started at [m] is exactly the baseline series. *)
Theorem generateSpellData_NONE_baseline
    (h : list number) (p : number) (m : Z) :
  length h = 6%nat -> Forall nonneg h -> nonneg p -> 6 <= m <= 11 ->
  generateSpellData h p (SPELL_OPTIONS NONE) m = generateBaselineData h p.
Proof. intros _ _ _ _. apply no_spell_series. Qed.

Lemma generateSpellData_NONE_baseline_witness :
  generateSpellData INITIAL_DRIVING_HOURS (of_Z 76) (SPELL_OPTIONS NONE) 9
  = generateBaselineData INITIAL_DRIVING_HOURS (of_Z 76).
Proof.
  apply generateSpellData_NONE_baseline.
  - reflexivity.
  - repeat constructor; discriminate.
  - discriminate.
  - lia.
Defined.

(** ** C3: the shape of a scenario series *)

(** C3.  For every spell and every activation month [m] from 6 to 11, the
    scenario series has the historical hours at the base rate in months 0
    to 5, the predicted hours at the base rate in months 6 to [m - 1], the
    one-time cost plus the predicted hours at the spell's rate in month [m],
    and the predicted hours at the spell's rate afterwards; with [m = 6]
    the first month after the historical ones is the activation month. *)
Theorem generateSpellData_months
    (h : list number) (p : number) (s : Spell) (m : Z) :
  6 <= m <= 11 ->
  let series := generateSpellData h p s m in
  length series = 12%nat
  /\ (forall (i : nat) (x : number), (i < 6)%nat -> h !! i = Some x ->
        series !! i = Some (calculateMonthlyCost x (Some BASE_COST_PER_HOUR)))
  /\ (forall i : nat, 6 <= Z.of_nat i < m ->
        series !! i = Some (calculateMonthlyCost p (Some BASE_COST_PER_HOUR)))
  /\ series !! Z.to_nat m =
       Some (tireCost s + engineCost s
             + calculateMonthlyCost p (Some (hourlyRate s)))%js
  /\ (forall i : nat, m < Z.of_nat i <= 11 ->
        series !! i = Some (calculateMonthlyCost p (Some (hourlyRate s))))
  /\ (m = 6 ->
        (forall i : nat, ~ 6 <= Z.of_nat i < m)
        /\ series !! 6%nat =
             Some (tireCost s + engineCost s
                   + calculateMonthlyCost p (Some (hourlyRate s)))%js).
Proof.
  intros Hm series. subst series.
  split; [apply generateSpellData_length|].
  split.
  { intros i x Hi Hx. rewrite generateSpellData_lookup by lia.
    month_tests. rewrite (hours_at_Some _ _ _ Hx). reflexivity. }
  split.
  { intros i Hi. rewrite generateSpellData_lookup by lia.
    month_tests. reflexivity. }
  split.
  { rewrite generateSpellData_lookup by lia. month_tests. reflexivity. }
  split.
  { intros i Hi. rewrite generateSpellData_lookup by lia.
    month_tests. reflexivity. }
  intros ->. split; [lia|].
  rewrite generateSpellData_lookup by lia. reflexivity.
Qed.

Lemma generateSpellData_months_witness :
  let series :=
    generateSpellData INITIAL_DRIVING_HOURS (of_Z 76) (SPELL_OPTIONS TIRE) 8 in
  series !! 7%nat = Some (of_Z 7600)
  /\ series !! 8%nat = Some (of_Z 7078)
  /\ series !! 9%nat = Some (of_Z 7068).
Proof.
  pose proof (generateSpellData_months INITIAL_DRIVING_HOURS (of_Z 76)
                (SPELL_OPTIONS TIRE) 8 ltac:(lia)) as H.
  cbv zeta in H. destruct H as (_ & _ & Hpre & Hact & Hpost & _).
  split; [|split].
  - rewrite (Hpre 7%nat ltac:(lia)). vm_compute. reflexivity.
  - change 8%nat with (Z.to_nat 8). rewrite Hact. vm_compute. reflexivity.
  - rewrite (Hpost 9%nat ltac:(lia)). vm_compute. reflexivity.
Defined.

(** ** C8: twelve non-negative months *)

Lemma catalog_rate_positive (key : SpellKey) :
  exists r : Q, hourlyRate (SPELL_OPTIONS key) = Fin r /\ (0 < r)%Q.
Proof. destruct key; eexists; (split; [reflexivity|reflexivity]). Qed.

Lemma catalog_cost_nonneg (key : SpellKey) :
  nonneg (tireCost (SPELL_OPTIONS key) + engineCost (SPELL_OPTIONS key))%js.
Proof. destruct key; discriminate. Qed.

Lemma base_cost_nonneg (x : number) :
  nonneg x -> nonneg (calculateMonthlyCost x None).
Proof.
  intros H. change (calculateMonthlyCost x None)
    with (calculateMonthlyCost x (Some (Fin (inject_Z 100)))).
  apply calculateMonthlyCost_nonneg; [exact H|reflexivity].
Qed.

Lemma hours_at_nonneg (h : list number) (i : nat) :
  Forall nonneg h -> (i < length h)%nat -> nonneg (hours_at h i).
Proof.
  intros Hall Hi. destruct (lookup_lt_is_Some_2 h i Hi) as [x Hx].
  rewrite (hours_at_Some _ _ _ Hx).
  exact (proj1 (Forall_lookup nonneg h) Hall i x Hx).
Qed.

(** C8.  For every series of six non-negative hours, every non-negative
    prediction, every spell of the catalog and every activation month from
    6 to 11, the baseline series and the scenario series both have exactly
    twelve entries, none of them negative. *)
Theorem series_length_nonneg
    (h : list number) (p : number) (key : SpellKey) (m : Z) :
  length h = 6%nat -> Forall nonneg h -> nonneg p -> 6 <= m <= 11 ->
  length (generateBaselineData h p) = 12%nat
  /\ Forall nonneg (generateBaselineData h p)
  /\ length (generateSpellData h p (SPELL_OPTIONS key) m) = 12%nat
  /\ Forall nonneg (generateSpellData h p (SPELL_OPTIONS key) m).
Proof.
  intros Hlen Hh Hp Hm.
  split; [apply generateBaselineData_length|].
  split.
  { apply Forall_lookup. intros i x Hx.
    assert (Hi : (i < 12)%nat).
    { rewrite <- (generateBaselineData_length h p).
      eapply lookup_lt_Some; exact Hx. }
    rewrite generateBaselineData_lookup in Hx by exact Hi.
    injection Hx as <-.
    destruct (Nat.ltb_spec i 6).
    - apply base_cost_nonneg, hours_at_nonneg; [exact Hh|lia].
    - apply base_cost_nonneg, Hp. }
  split; [apply generateSpellData_length|].
  apply Forall_lookup. intros i x Hx.
  assert (Hi : (i < 12)%nat).
  { rewrite <- (generateSpellData_length h p (SPELL_OPTIONS key) m).
    eapply lookup_lt_Some; exact Hx. }
  rewrite generateSpellData_lookup in Hx by exact Hi.
  injection Hx as <-.
  destruct (catalog_rate_positive key) as (r & Hr & Hpos).
  assert (Hrate : nonneg (calculateMonthlyCost p
                            (Some (hourlyRate (SPELL_OPTIONS key))))).
  { rewrite Hr. apply calculateMonthlyCost_nonneg; assumption. }
  destruct (Nat.ltb_spec i 6).
  - apply base_cost_nonneg, hours_at_nonneg; [exact Hh|lia].
  - destruct (Z.of_nat i <? m).
    + apply base_cost_nonneg, Hp.
    + destruct (Z.of_nat i =? m); [|exact Hrate].
      apply add_nonneg; [apply catalog_cost_nonneg|exact Hrate].
Qed.

Lemma series_length_nonneg_witness :
  length (generateBaselineData INITIAL_DRIVING_HOURS (of_Z 76)) = 12%nat
  /\ Forall nonneg (generateBaselineData INITIAL_DRIVING_HOURS (of_Z 76))
  /\ length (generateSpellData INITIAL_DRIVING_HOURS (of_Z 76)
               (SPELL_OPTIONS ENGINE) 10) = 12%nat
  /\ Forall nonneg (generateSpellData INITIAL_DRIVING_HOURS (of_Z 76)
                      (SPELL_OPTIONS ENGINE) 10).
Proof.
  apply series_length_nonneg.
  - reflexivity.
  - repeat constructor; discriminate.
  - discriminate.
  - lia.
Defined.

(** ** C7: the end-to-end example *)


(** ** Validation of the hours array *)

Lemma ge_0_nonneg (n : number) : (n >=? of_Z 0)%js = true <-> nonneg n.
Proof.
  destruct n as [a| | |]; cbn; try (split; [discriminate|contradiction]).
  - apply Qle_bool_iff.
  - tauto.
Qed.

Lemma validateHours_array (l : list value) :
  validateHours (VArray l) =
  match l with
  | [] => Throw (mkError "Invalid driving hours data")
  | _ :: _ => Return (forallb is_number_ge0 l)
  end.
Proof. destruct l; reflexivity. Qed.

(** On an accepted array the forecast is the rounded quotient of the two
    folds over the last three elements. *)
Lemma predictFutureHours_accepted (l : list value) :
  l <> [] -> forallb is_number_ge0 l = true ->
  predictFutureHours (VArray l) =
  Return (Math_round
    (reduce (fun sum hour index => sum + ToNumber hour * of_nat (index + 1))
            (slice_last 3 l) (of_Z 0)
     / reduce (fun sum (_ : value) index => sum + of_nat (index + 1))
              (slice_last 3 l) (of_Z 0))%js).
Proof.
  intros Hne Hall. unfold predictFutureHours.
  rewrite validateHours_array. destruct l as [|x l]; [contradiction|].
  cbn [mbind result_bind]. rewrite Hall. reflexivity.
Qed.

(** ** The window of the forecast *)

Lemma last_three_drop (series : list Q) :
  last_three series = drop (length series - 3) series.
Proof.
  unfold last_three. rewrite take_reverse, reverse_involutive. reflexivity.
Qed.

Lemma nearest_integer_bounds (x y : Q) :
  (x == y)%Q ->
  (y - (1 # 2) < inject_Z (Qfloor (x + (1 # 2))))%Q
  /\ (inject_Z (Qfloor (x + (1 # 2))) <= y + (1 # 2))%Q.
Proof.
  intros E. pose proof (Qfloor_le (x + (1 # 2))) as Hle.
  pose proof (Qlt_floor (x + (1 # 2))) as Hlt.
  rewrite inject_Z_plus in Hlt. change (inject_Z 1) with 1%Q in Hlt.
  split; lra.
Qed.

(** ** Arrays the forecast rejects *)

Lemma predictFutureHours_rejected (l : list value) :
  l <> [] -> forallb is_number_ge0 l = false ->
  predictFutureHours (VArray l) = Throw (mkError "Invalid hours data").
Proof.
  intros Hne Hall. unfold predictFutureHours.
  rewrite validateHours_array. destruct l as [|x l]; [contradiction|].
  cbn [mbind result_bind]. rewrite Hall. reflexivity.
Qed.

Lemma predictFutureHours_not_sequence (v : value) :
  Array_isArray v = false \/ elements_of v = [] ->
  predictFutureHours v = Throw (mkError "Invalid driving hours data").
Proof.
  intros [H|H].
  - destruct v; try reflexivity. discriminate.
  - destruct v as [| | | | |l|]; try reflexivity.
    cbn in H. subst l. reflexivity.
Qed.

(** ** The first maximum of a fold *)

Section FirstMaximum.

Context {A : Type} (key : A -> number).

Let pick (best current : A) (_ : nat) : A :=
  if (key current >? key best)%js then current else best.

(** Folding [pick] from [acc] over [l] either keeps [acc], which then
    dominates [l], or ends on the first element of [l] that is strictly
    above [acc] and dominates [l]. *)
Lemma reduce_pick (l : list A) : forall (acc : A) (k : nat),
  is_finite (key acc) -> Forall (fun x => is_finite (key x)) l ->
  let b := reduce_from pick k l acc in
  is_finite (key b)
  /\ ((b = acc /\ Forall (fun x => (key acc >=? key x)%js = true) l)
      \/ (exists i : nat,
            l !! i = Some b
            /\ (key b >? key acc)%js = true
            /\ Forall (fun x => (key b >=? key x)%js = true) l
            /\ forall (j : nat) (y : A), (j < i)%nat -> l !! j = Some y ->
                 (key b >? key y)%js = true)).
Proof.
  induction l as [|x l IH]; intros acc k Hacc Hall; cbn zeta.
  - split; [exact Hacc|]. left. split; [reflexivity|constructor].
  - apply Forall_cons in Hall as [Hx Hl]. cbn [reduce_from].
    assert (Hp : pick acc x k = if (key x >? key acc)%js then x else acc)
      by reflexivity.
    rewrite Hp. clear Hp. destruct (key x >? key acc)%js eqn:Hgt.
    + destruct (IH x (S k) Hx Hl) as (Hb & [[Heq Hdom]|(i & Hi & Hbx & Hdom & Hearly)]).
      * split; [exact Hb|]. right. exists 0%nat. rewrite Heq.
        split; [reflexivity|]. split; [exact Hgt|].
        split; [|intros j y Hj; lia].
        constructor; [apply ge_refl; exact Hx|exact Hdom].
      * split; [exact Hb|]. right. exists (S i).
        split; [exact Hi|].
        split; [apply (gt_ge_trans _ (key x) _ Hb Hx Hacc Hbx);
                apply gt_ge; assumption|].
        split; [constructor; [apply gt_ge; assumption|exact Hdom]|].
        intros [|j] y Hj Hy.
        -- cbn in Hy. injection Hy as <-. exact Hbx.
        -- apply (Hearly j y); [lia|exact Hy].
    + pose proof (gt_false_ge _ _ Hx Hacc Hgt) as Hle.
      destruct (IH acc (S k) Hacc Hl) as (Hb & [[Heq Hdom]|(i & Hi & Hba & Hdom & Hearly)]).
      * split; [exact Hb|]. left. split; [exact Heq|].
        constructor; assumption.
      * split; [exact Hb|]. right. exists (S i).
        split; [exact Hi|]. split; [exact Hba|].
        assert (Hbx : (key (reduce_from pick (S k) l acc) >? key x)%js = true)
          by exact (gt_ge_trans _ (key acc) _ Hb Hacc Hx Hba Hle).
        split; [constructor; [apply gt_ge; assumption|exact Hdom]|].
        intros [|j] y Hj Hy.
        -- cbn in Hy. injection Hy as <-. exact Hbx.
        -- apply (Hearly j y); [lia|exact Hy].
Qed.

(** [l.reduce(pick, l[0])] is the first element of [l] whose key is
    maximal. *)
Lemma reduce_pick_first (first : A) (rest : list A) :
  Forall (fun x => is_finite (key x)) (first :: rest) ->
  let b := reduce pick (first :: rest) first in
  exists i : nat,
    (first :: rest) !! i = Some b
    /\ Forall (fun x => (key b >=? key x)%js = true) (first :: rest)
    /\ forall (j : nat) (y : A), (j < i)%nat ->
         (first :: rest) !! j = Some y -> (key b >? key y)%js = true.
Proof.
  intros Hall b. subst b. unfold reduce. pose proof Hall as Hfirst.
  apply Forall_cons in Hfirst as [Hfirst _].
  destruct (reduce_pick (first :: rest) first 0 Hfirst Hall)
    as (_ & [[Heq Hdom]|(i & Hi & _ & Hdom & Hearly)]).
  - exists 0%nat. rewrite Heq.
    split; [reflexivity|]. split; [exact Hdom|]. intros j y Hj. lia.
  - exists i. auto.
Qed.

End FirstMaximum.

(** ** Finite inputs give finite totals and savings *)

Lemma catalog_finite (key : SpellKey) : finite_spell (SPELL_OPTIONS key).
Proof. destruct key; repeat split. Qed.






(** ** C6: the recommended scenario *)



(** Two scenarios with the same savings: the one entered first is kept. *)
Example tie_keeps_the_earlier :
  (id ∘ spellConfig ∘ best) <$>
    getRecommendedScenario INITIAL_DRIVING_HOURS predictedHours
      [ {| spell := SPELL_OPTIONS NONE; month := 6; id := 1 |};
        {| spell := SPELL_OPTIONS BOTH; month := 7; id := 2 |};
        {| spell := SPELL_OPTIONS BOTH; month := 7; id := 3 |} ]
  = Some 2.
Proof. vm_compute. reflexivity. Qed.

(** ** C10: the frame of [updateSpell] and [removeSpell] *)

(** C10.  [updateSpell id' s m] keeps the length, the order and every
    identifier of the list, gives the entries whose identifier is [id']
    the spell [s] and the month [m], and leaves every other entry as it
    was.  [removeSpell id'] drops every entry whose identifier is [id'],
    however many there are, and keeps all the others as they were and in
    their order. *)
Theorem updateSpell_removeSpell_frame
    (prev : list SpellConfig) (id' : Z) (s : Spell) (m : Z) :
  length (updateSpell id' s m prev) = length prev
  /\ id <$> updateSpell id' s m prev = id <$> prev
  /\ (forall (i : nat) (c : SpellConfig),
        prev !! i = Some c -> id c = id' ->
        updateSpell id' s m prev !! i
        = Some {| spell := s; month := m; id := id c |})
  /\ (forall (i : nat) (c : SpellConfig),
        prev !! i = Some c -> id c <> id' ->
        updateSpell id' s m prev !! i = Some c)
  /\ Forall (fun c => id c <> id') (removeSpell id' prev)
  /\ removeSpell id' prev `sublist_of` prev
  /\ (forall c : SpellConfig,
        c ∈ removeSpell id' prev <-> c ∈ prev /\ id c <> id')
  /\ (forall (l1 l2 : list SpellConfig) (c : SpellConfig),
        prev = l1 ++ c :: l2 ->
        removeSpell id' prev
        = removeSpell id' l1
          ++ (if bool_decide (id c = id') then [] else [c])
          ++ removeSpell id' l2)
  /\ (Forall (fun c => id c <> id') prev -> removeSpell id' prev = prev).
Proof.
  unfold updateSpell, removeSpell.
  split; [apply length_fmap|].
  split.
  { rewrite <- list_fmap_compose. apply list_fmap_ext.
    intros i c _. cbn. destruct (bool_decide (id c = id')); reflexivity. }
  split.
  { intros i c Hc Heq. rewrite list_lookup_fmap, Hc. cbn.
    rewrite bool_decide_eq_true_2 by exact Heq. reflexivity. }
  split.
  { intros i c Hc Hne. rewrite list_lookup_fmap, Hc. cbn.
    rewrite bool_decide_eq_false_2 by exact Hne. reflexivity. }
  split.
  { apply Forall_forall. intros c Hc.
    apply list_elem_of_filter in Hc. tauto. }
  split; [apply sublist_filter|].
  split.
  { intros c. rewrite list_elem_of_filter. tauto. }
  split.
  { intros l1 l2 c ->. rewrite filter_app, filter_cons.
    destruct (decide (id c <> id')) as [Hne|Heq].
    - rewrite bool_decide_eq_false_2 by exact Hne. reflexivity.
    - rewrite bool_decide_eq_true_2; [reflexivity|].
      destruct (decide (id c = id')); [assumption|contradiction]. }
  intros Hall. induction Hall as [|c l Hc Hl IH]; [reflexivity|].
  rewrite filter_cons_True by exact Hc. rewrite IH. reflexivity.
Qed.

(** Two entries share the identifier 7: both are updated, both removed. *)
Example shared_identifier :
  let a := {| spell := SPELL_OPTIONS NONE; month := 6; id := 7 |} in
  let b := {| spell := SPELL_OPTIONS TIRE; month := 8; id := 5 |} in
  updateSpell 7 (SPELL_OPTIONS BOTH) 9 [a; b; a]
  = [ {| spell := SPELL_OPTIONS BOTH; month := 9; id := 7 |}; b;
      {| spell := SPELL_OPTIONS BOTH; month := 9; id := 7 |} ]
  /\ removeSpell 7 [a; b; a] = [b].
Proof. split; reflexivity. Qed.

(** ** C4: the return on investment *)


(** The fold of [getRecommendedScenario] ends on its start value or on an
    element of the list. *)
Lemma reduce_from_pick_elem {A : Type} (test : A -> A -> bool) (l : list A) :
  forall (acc : A) (k : nat),
    let b := reduce_from (fun best current (_ : nat) =>
                            if test current best then current else best)
                         k l acc in
    b = acc \/ b ∈ l.
Proof.
  induction l as [|x l IH]; intros acc k; cbn zeta; cbn [reduce_from].
  - left. reflexivity.
  - destruct (test x acc).
    + destruct (IH x (S k)) as [->|H]; right.
      * apply list_elem_of_here.
      * apply list_elem_of_further. exact H.
    + destruct (IH acc (S k)) as [H|H]; [left; exact H|right].
      apply list_elem_of_further. exact H.
Qed.





(** * Further properties of the component *)

(** ** Adding, updating and removing scenarios *)

Lemma removeSpell_fresh (spellId : Z) (prev : list SpellConfig) :
  Forall (fun c => id c <> spellId) prev -> removeSpell spellId prev = prev.
Proof.
  intros Hall. unfold removeSpell.
  induction Hall as [|c l Hc Hl IH]; [reflexivity|].
  rewrite filter_cons_True by exact Hc. rewrite IH. reflexivity.
Qed.

Lemma updateSpell_fresh (i : Z) (s : Spell) (m : Z) (prev : list SpellConfig) :
  Forall (fun c => id c <> i) prev -> updateSpell i s m prev = prev.
Proof.
  intros Hall. unfold updateSpell.
  induction Hall as [|c l Hc Hl IH]; [reflexivity|].
  cbn [fmap list_fmap]. rewrite bool_decide_eq_false_2 by exact Hc.
  f_equal. exact IH.
Qed.

Lemma removeSpell_app (i : Z) (l1 l2 : list SpellConfig) :
  removeSpell i (l1 ++ l2) = removeSpell i l1 ++ removeSpell i l2.
Proof. unfold removeSpell. apply filter_app. Qed.

Lemma updateSpell_app (i : Z) (s : Spell) (m : Z) (l1 l2 : list SpellConfig) :
  updateSpell i s m (l1 ++ l2) = updateSpell i s m l1 ++ updateSpell i s m l2.
Proof. unfold updateSpell. apply fmap_app. Qed.

Lemma removeSpell_same (i : Z) (s : Spell) (m : Z) :
  removeSpell i [ {| spell := s; month := m; id := i |} ] = [].
Proof.
  unfold removeSpell. rewrite filter_cons_False; [reflexivity|].
  cbn. intros H. apply H. reflexivity.
Qed.

Lemma updateSpell_same (i : Z) (s0 s : Spell) (m0 m : Z) :
  updateSpell i s m [ {| spell := s0; month := m0; id := i |} ]
  = [ {| spell := s; month := m; id := i |} ].
Proof.
  unfold updateSpell. cbn. rewrite bool_decide_eq_true_2 by reflexivity.
  reflexivity.
Qed.

(** X1.  Removing the scenario that [addSpell] has just added gives back
    the list as it was, provided no older scenario carries the same
    identifier; in any case it leaves what removing that identifier from
    the old list leaves. *)
Theorem removeSpell_addSpell (now : Z) (prev : list SpellConfig) :
  Forall (fun c => id c <> now) prev ->
  removeSpell now (addSpell now prev) = prev
  /\ forall other : list SpellConfig,
       removeSpell now (addSpell now other) = removeSpell now other.
Proof.
  intros Hfresh.
  assert (H : forall other, removeSpell now (addSpell now other)
                            = removeSpell now other).
  { intros other. unfold addSpell.
    rewrite removeSpell_app, removeSpell_same. apply app_nil_r. }
  split; [|exact H].
  rewrite H. apply removeSpell_fresh. exact Hfresh.
Qed.

Lemma removeSpell_addSpell_witness :
  let prev := [ {| spell := SPELL_OPTIONS TIRE; month := 8; id := 5 |} ] in
  removeSpell 9 (addSpell 9 prev) = prev.
Proof.
  intros prev.
  apply (proj1 (removeSpell_addSpell 9 prev
                  ltac:(repeat constructor; discriminate))).
Defined.

(** X2.  Choosing a spell and a month for the scenario that [addSpell] has
    just added changes that last entry only, provided no older scenario
    carries the same identifier. *)
Theorem updateSpell_addSpell (now : Z) (s : Spell) (m : Z)
    (prev : list SpellConfig) :
  Forall (fun c => id c <> now) prev ->
  updateSpell now s m (addSpell now prev)
  = prev ++ [ {| spell := s; month := m; id := now |} ].
Proof.
  intros Hfresh. unfold addSpell.
  rewrite updateSpell_app, updateSpell_same, updateSpell_fresh by exact Hfresh.
  reflexivity.
Qed.

Lemma updateSpell_addSpell_witness :
  let prev := [ {| spell := SPELL_OPTIONS TIRE; month := 8; id := 5 |} ] in
  updateSpell 9 (SPELL_OPTIONS BOTH) 7 (addSpell 9 prev)
  = prev ++ [ {| spell := SPELL_OPTIONS BOTH; month := 7; id := 9 |} ].
Proof.
  intros prev. apply updateSpell_addSpell.
  repeat constructor; discriminate.
Defined.

(** X3.  Two scenarios added within the same millisecond share their
    identifier: updating one of them updates both, and removing one of
    them removes both. *)
Theorem same_millisecond_scenarios (now : Z) (s : Spell) (m : Z)
    (prev : list SpellConfig) :
  Forall (fun c => id c <> now) prev ->
  updateSpell now s m (addSpell now (addSpell now prev))
  = prev ++ [ {| spell := s; month := m; id := now |};
              {| spell := s; month := m; id := now |} ]
  /\ removeSpell now (addSpell now (addSpell now prev)) = prev.
Proof.
  intros Hfresh. unfold addSpell. split.
  - rewrite !updateSpell_app, !updateSpell_same, updateSpell_fresh
      by exact Hfresh.
    rewrite <- app_assoc. reflexivity.
  - rewrite !removeSpell_app, !removeSpell_same, !app_nil_r.
    apply removeSpell_fresh. exact Hfresh.
Qed.

Lemma same_millisecond_scenarios_witness :
  removeSpell 9 (addSpell 9 (addSpell 9
    [ {| spell := SPELL_OPTIONS TIRE; month := 8; id := 5 |} ]))
  = [ {| spell := SPELL_OPTIONS TIRE; month := 8; id := 5 |} ].
Proof.
  apply (proj2 (same_millisecond_scenarios 9 (SPELL_OPTIONS NONE) 6
                  [ {| spell := SPELL_OPTIONS TIRE; month := 8; id := 5 |} ]
                  ltac:(repeat constructor; discriminate))).
Defined.

(** X4.  Of two updates of the same identifier the later one wins, and
    updates of different identifiers can be done in either order. *)
Theorem updateSpell_updateSpell (i j : Z) (s1 s2 : Spell) (m1 m2 : Z)
    (prev : list SpellConfig) :
  updateSpell i s2 m2 (updateSpell i s1 m1 prev) = updateSpell i s2 m2 prev
  /\ (i <> j ->
      updateSpell i s1 m1 (updateSpell j s2 m2 prev)
      = updateSpell j s2 m2 (updateSpell i s1 m1 prev)).
Proof.
  unfold updateSpell. split.
  - rewrite <- list_fmap_compose. apply list_fmap_ext. intros k c _. cbn.
    destruct (bool_decide (id c = i)) eqn:E; cbn; rewrite E; reflexivity.
  - intros Hij. rewrite <- !list_fmap_compose. apply list_fmap_ext.
    intros k c _. cbn.
    destruct (bool_decide (id c = i)) eqn:Ei;
      destruct (bool_decide (id c = j)) eqn:Ej; cbn; rewrite ?Ei, ?Ej;
      try reflexivity.
    apply bool_decide_eq_true_1 in Ei. apply bool_decide_eq_true_1 in Ej.
    congruence.
Qed.

Lemma updateSpell_updateSpell_witness :
  let l := [ {| spell := SPELL_OPTIONS NONE; month := 6; id := 1 |};
             {| spell := SPELL_OPTIONS NONE; month := 6; id := 2 |} ] in
  updateSpell 1 (SPELL_OPTIONS TIRE) 7 (updateSpell 2 (SPELL_OPTIONS BOTH) 9 l)
  = updateSpell 2 (SPELL_OPTIONS BOTH) 9 (updateSpell 1 (SPELL_OPTIONS TIRE) 7 l).
Proof.
  intros l.
  apply (proj2 (updateSpell_updateSpell 1 2 (SPELL_OPTIONS TIRE)
                  (SPELL_OPTIONS BOTH) 7 9 l)).
  discriminate.
Defined.

(** X5.  Removing an identifier discards an earlier update of it, removal
    commutes with the update of another identifier, and removals commute
    with each other and are idempotent. *)
Theorem removeSpell_updateSpell (i j : Z) (s : Spell) (m : Z)
    (prev : list SpellConfig) :
  removeSpell i (updateSpell i s m prev) = removeSpell i prev
  /\ (i <> j ->
      removeSpell j (updateSpell i s m prev)
      = updateSpell i s m (removeSpell j prev))
  /\ removeSpell i (removeSpell j prev) = removeSpell j (removeSpell i prev)
  /\ removeSpell i (removeSpell i prev) = removeSpell i prev.
Proof.
  split; [|split; [|split]].
  - induction prev as [|c l IH]; [reflexivity|].
    change (updateSpell i s m (c :: l))
      with ((if bool_decide (id c = i)
             then {| spell := s; month := m; id := id c |} else c)
            :: updateSpell i s m l).
    unfold removeSpell in *. rewrite !filter_cons, IH.
    destruct (bool_decide_reflect (id c = i)) as [E|E]; cbn [id].
    + destruct (decide (id c <> i)); [contradiction|reflexivity].
    + reflexivity.
  - intros Hij. induction prev as [|c l IH]; [reflexivity|].
    change (updateSpell i s m (c :: l))
      with ((if bool_decide (id c = i)
             then {| spell := s; month := m; id := id c |} else c)
            :: updateSpell i s m l).
    unfold removeSpell in *. rewrite !filter_cons, IH.
    destruct (bool_decide (id c = i)) eqn:E; cbn [id].
    + destruct (decide (id c <> j)); [|reflexivity].
      unfold updateSpell. cbn [fmap list_fmap]. rewrite E. reflexivity.
    + destruct (decide (id c <> j)); [|reflexivity].
      unfold updateSpell. cbn [fmap list_fmap]. rewrite E. reflexivity.
  - unfold removeSpell.
    rewrite !list_filter_filter. apply list_filter_iff. intros c. tauto.
  - unfold removeSpell.
    rewrite list_filter_filter. apply list_filter_iff. intros c. tauto.
Qed.

Lemma removeSpell_updateSpell_witness :
  let l := [ {| spell := SPELL_OPTIONS NONE; month := 6; id := 1 |};
             {| spell := SPELL_OPTIONS NONE; month := 6; id := 2 |} ] in
  removeSpell 2 (updateSpell 1 (SPELL_OPTIONS TIRE) 7 l)
  = updateSpell 1 (SPELL_OPTIONS TIRE) 7 (removeSpell 2 l).
Proof.
  intros l.
  apply (proj1 (proj2 (removeSpell_updateSpell 1 2 (SPELL_OPTIONS TIRE) 7 l))).
  discriminate.
Defined.

(** ** The forecast beyond the claims *)

Lemma slice_last_length {A : Type} (n : nat) (l : list A) :
  length (slice_last n l) = Nat.min n (length l).
Proof. unfold slice_last. rewrite length_drop. lia. Qed.

Lemma slice_last_idem {A : Type} (n : nat) (l : list A) :
  slice_last n (slice_last n l) = slice_last n l.
Proof.
  unfold slice_last at 1. rewrite slice_last_length.
  replace (Nat.min n (length l) - n)%nat with 0%nat by lia. reflexivity.
Qed.

Lemma slice_last_app {A : Type} (n : nat) (pre l : list A) :
  (n <= length l)%nat -> slice_last n (pre ++ l) = slice_last n l.
Proof.
  intros H. unfold slice_last. rewrite length_app.
  replace (length pre + length l - n)%nat
    with (length pre + (length l - n))%nat by lia.
  rewrite drop_app_add. reflexivity.
Qed.

Lemma forallb_slice_last {A : Type} (f : A -> bool) (n : nat) (l : list A) :
  forallb f l = true -> forallb f (slice_last n l) = true.
Proof.
  unfold slice_last. generalize (length l - n)%nat. intros k. revert l.
  induction k as [|k IH]; intros l H; [exact H|].
  destruct l as [|x l]; [reflexivity|].
  cbn in H |- *. apply andb_true_iff in H as [_ H]. apply IH. exact H.
Qed.

(** What [predictFutureHours] returns, it returns on an accepted non-empty
    array. *)
Lemma predictFutureHours_Return_inv (v : value) (r : number) :
  predictFutureHours v = Return r ->
  exists l : list value,
    v = VArray l /\ l <> [] /\ forallb is_number_ge0 l = true.
Proof.
  intros H. destruct v as [| | | | |l|];
    try (rewrite predictFutureHours_not_sequence in H
           by (left; reflexivity); discriminate).
  exists l. split; [reflexivity|].
  destruct l as [|x l].
  - rewrite predictFutureHours_not_sequence in H by (right; reflexivity).
    discriminate.
  - split; [discriminate|].
    destruct (forallb is_number_ge0 (x :: l)) eqn:E; [reflexivity|].
    rewrite predictFutureHours_rejected in H by (discriminate || exact E).
    discriminate.
Qed.

(** X6.  The forecast reads the last three hours only: whatever
    [predictFutureHours] returns on an array it returns on the last three
    elements alone, and accepted hours put in front of three or more
    elements change neither the result nor the error. *)
Theorem predictFutureHours_last_three (l : list value) (r : number) :
  predictFutureHours (VArray l) = Return r ->
  predictFutureHours (VArray (slice_last 3 l)) = Return r
  /\ forall older : list value,
       forallb is_number_ge0 older = true -> (3 <= length l)%nat ->
       predictFutureHours (VArray (older ++ l)) = Return r.
Proof.
  intros H.
  destruct (predictFutureHours_Return_inv _ _ H) as (l' & [= <-] & Hne & Hok).
  rewrite predictFutureHours_accepted in H by assumption.
  split.
  - rewrite predictFutureHours_accepted.
    + rewrite slice_last_idem. exact H.
    + intros E. apply (f_equal length) in E.
      rewrite slice_last_length in E. destruct l; [contradiction|].
      cbn in E. lia.
    + apply forallb_slice_last. exact Hok.
  - intros older Holder Hlen. rewrite predictFutureHours_accepted.
    + rewrite slice_last_app by exact Hlen. exact H.
    + destruct older; [exact Hne|discriminate].
    + rewrite forallb_app, Holder, Hok. reflexivity.
Qed.

Lemma predictFutureHours_last_three_witness :
  predictFutureHours
    (VArray (slice_last 3 (VNumber <$> INITIAL_DRIVING_HOURS)))
  = Return (of_Z 76).
Proof.
  assert (H : predictFutureHours (VArray (VNumber <$> INITIAL_DRIVING_HOURS))
              = Return (of_Z 76)) by (vm_compute; reflexivity).
  exact (proj1 (predictFutureHours_last_three _ _ H)).
Defined.

Lemma Math_round_nonneg (q : Q) : (0 <= q)%Q -> nonneg (Math_round (Fin q)).
Proof.
  intros H. unfold Math_round, of_Z, nonneg.
  change 0%Q with (inject_Z 0). rewrite <- Zle_Qle.
  change 0%Z with (Qfloor (inject_Z 0)). apply Qfloor_resp_le.
  change (inject_Z 0) with 0%Q. lra.
Qed.

(** ** The series outside the offered months *)

(** X9.  A spell started in month 12 or later never takes effect: its
    series is the baseline.  A spell started before month 6 runs at its
    own rate in every projected month, and its one-time cost is never
    charged. *)
Theorem generateSpellData_outside (h : list number) (p : number) (s : Spell)
    (m : Z) :
  (12 <= m -> generateSpellData h p s m = generateBaselineData h p)
  /\ (m < 6 ->
      forall i : nat, (6 <= i < 12)%nat ->
        generateSpellData h p s m !! i
        = Some (calculateMonthlyCost p (Some (hourlyRate s)))).
Proof.
  split.
  - intros Hm. unfold generateSpellData, generateBaselineData.
    apply imap_ext. intros i name Hi.
    apply lookup_lt_Some in Hi. cbn [length MONTHS] in Hi.
    destruct (i <? 6)%nat; [reflexivity|].
    destruct (Z.ltb_spec (Z.of_nat i) m); [reflexivity|lia].
  - intros Hm i Hi. rewrite generateSpellData_lookup by lia.
    month_tests. reflexivity.
Qed.

Lemma generateSpellData_outside_witness :
  generateSpellData INITIAL_DRIVING_HOURS (of_Z 76) (SPELL_OPTIONS BOTH) 12
  = generateBaselineData INITIAL_DRIVING_HOURS (of_Z 76)
  /\ generateSpellData INITIAL_DRIVING_HOURS (of_Z 76) (SPELL_OPTIONS BOTH) 3
       !! 6%nat
     = Some (of_Z 6308).
Proof.
  split.
  - apply (proj1 (generateSpellData_outside INITIAL_DRIVING_HOURS (of_Z 76)
                    (SPELL_OPTIONS BOTH) 12)). lia.
  - rewrite (proj2 (generateSpellData_outside INITIAL_DRIVING_HOURS (of_Z 76)
                      (SPELL_OPTIONS BOTH) 3) ltac:(lia) 6%nat ltac:(lia)).
    vm_compute. reflexivity.
Defined.

(** X10.  Up to its activation month a scenario costs what the baseline
    costs: the two series agree on every month before [m], whatever the
    spell. *)
Theorem generateSpellData_before_activation (h : list number) (p : number)
    (s : Spell) (m : Z) :
  take (Z.to_nat m) (generateSpellData h p s m)
  = take (Z.to_nat m) (generateBaselineData h p).
Proof.
  apply list_eq. intros i.
  destruct (Nat.lt_ge_cases i (Z.to_nat m)) as [Hi|Hi].
  - rewrite !lookup_take_lt by exact Hi.
    destruct (Nat.lt_ge_cases i 12) as [Hi12|Hi12].
    + rewrite generateSpellData_lookup, generateBaselineData_lookup
        by exact Hi12.
      destruct (i <? 6)%nat; [reflexivity|].
      destruct (Z.ltb_spec (Z.of_nat i) m); [reflexivity|lia].
    + rewrite !lookup_ge_None_2; [reflexivity| |].
      * rewrite generateBaselineData_length. exact Hi12.
      * rewrite generateSpellData_length. exact Hi12.
  - rewrite !lookup_take_ge by exact Hi. reflexivity.
Qed.

(** ** The recommendation and the summary figures *)

(** The recommended entry is the analysis of one of the scenarios, with
    that scenario's description, and its text is chosen by the sign of its
    savings. *)
Lemma recommended_is_scenario (h : list number) (p : number)
    (l : list SpellConfig) (r : Recommended) :
  getRecommendedScenario h p l = Some r ->
  exists c : SpellConfig,
    c ∈ l
    /\ best r = calculateScenarioSavings h p c
    /\ best_description r = snd (describe h p c)
    /\ recommendation r
       = if (savings (best r) >? of_Z 0)%js
         then best_description r
              +:+ " provides the highest savings of "
              +:+ toFixed (savings (best r)) 2
              +:+ " gold coins with an ROI of "
              +:+ toFixed (roi (best r)) 1 +:+ "%"
         else "None of the current scenarios provide cost savings.".
Proof.
  intros Hr. unfold getRecommendedScenario in Hr.
  destruct l as [|c0 cs]; [discriminate|].
  cbn [fmap list_fmap] in Hr. injection Hr as <-.
  cbn [best best_description recommendation].
  match goal with
  | |- context [reduce ?f ?xs ?init] => set (b := reduce f xs init)
  end.
  assert (Hb : exists c, c ∈ c0 :: cs /\ b = describe h p c).
  { destruct (reduce_from_pick_elem
                (fun current best0 : Analysis * string =>
                   (savings (fst current) >? savings (fst best0))%js)
                (describe h p c0 :: (describe h p <$> cs))
                (describe h p c0) 0%nat) as [H|H].
    - exists c0. split; [apply list_elem_of_here|exact H].
    - change (describe h p c0 :: (describe h p <$> cs))
        with (describe h p <$> c0 :: cs) in H.
      apply list_elem_of_fmap in H as (c & Hc & Hin). exists c. auto. }
  destruct Hb as (c & Hin & Hc). exists c. rewrite Hc.
  split; [exact Hin|]. repeat split; reflexivity.
Qed.

(** X13.  The "Total Savings" figure is 0 while no scenario is selected,
    and otherwise exactly the savings of the recommended scenario. *)
Theorem costDifference_recommended (h : list number) (p : number)
    (l : list SpellConfig) (r : Recommended) :
  getRecommendedScenario h p l = Some r ->
  costDifference h p l = savings (best r)
  /\ costDifference h p [] = of_Z 0.
Proof.
  intros Hr. split; [|reflexivity].
  destruct (recommended_is_scenario h p l r Hr) as (c & _ & Hbest & _).
  unfold costDifference. rewrite Hr, Hbest. reflexivity.
Qed.

Lemma costDifference_recommended_witness :
  costDifference INITIAL_DRIVING_HOURS (of_Z 76)
    [ {| spell := SPELL_OPTIONS NONE; month := 6; id := 1 |};
      {| spell := SPELL_OPTIONS BOTH; month := 6; id := 2 |} ]
  = of_Z 7710.
Proof.
  destruct (getRecommendedScenario INITIAL_DRIVING_HOURS (of_Z 76)
              [ {| spell := SPELL_OPTIONS NONE; month := 6; id := 1 |};
                {| spell := SPELL_OPTIONS BOTH; month := 6; id := 2 |} ])
    as [r|] eqn:Hr; [|discriminate].
  rewrite (proj1 (costDifference_recommended _ _ _ r Hr)).
  vm_compute in Hr. injection Hr as <-. reflexivity.
Defined.

Lemma ge_gt_trans (x y z : number) :
  is_finite x -> is_finite y -> is_finite z ->
  (x >=? y)%js = true -> (y >? z)%js = true -> (x >? z)%js = true.
Proof.
  destruct x as [a| | |], y as [b| | |], z as [c| | |]; try contradiction.
  intros _ _ _ H1 H2. apply ge_Fin in H1. apply gt_Fin in H2.
  apply gt_Fin. eapply Qlt_le_trans; eassumption.
Qed.

Lemma reduce_from_app {A B : Type} (f : B -> A -> nat -> B) (l1 l2 : list A) :
  forall (k : nat) (acc : B),
    reduce_from f k (l1 ++ l2) acc
    = reduce_from f (k + length l1) l2 (reduce_from f k l1 acc).
Proof.
  induction l1 as [|x l1 IH]; intros k acc; cbn.
  - rewrite Nat.add_0_r. reflexivity.
  - rewrite IH. f_equal. lia.
Qed.

(** X16.  [totalJourneyCost] adds up the totals of the selected scenarios:
    it is 0 for no scenario, a further scenario adds the total of its own
    series, and the scenario [addSpell] creates adds the baseline total. *)
Theorem totalJourneyCost_grows (h : list number) (p : number)
    (l : list SpellConfig) (c : SpellConfig) (now : Z) :
  totalJourneyCost h p [] = of_Z 0
  /\ totalJourneyCost h p (l ++ [c])
     = (totalJourneyCost h p l
        + total (generateSpellData h p (spell c) (month c)))%js
  /\ totalJourneyCost h p (addSpell now l)
     = (totalJourneyCost h p l + total (generateBaselineData h p))%js.
Proof.
  split; [reflexivity|].
  assert (H : forall c', totalJourneyCost h p (l ++ [c'])
                = (totalJourneyCost h p l
                   + total (generateSpellData h p (spell c') (month c')))%js).
  { intros c'. unfold totalJourneyCost, reduce.
    rewrite reduce_from_app. reflexivity. }
  split; [apply H|].
  unfold addSpell. rewrite H. cbn [spell month].
  rewrite no_spell_series. reflexivity.
Qed.

(** ** The chart datasets *)

Lemma color_at_lookup (i : nat) :
  (i < 5)%nat -> colors !! i = Some (color_at i).
Proof.
  intros H. do 5 (destruct i as [|i]; [reflexivity|]). lia.
Qed.

(** X17.  The chart gets one dataset for the baseline and one per
    selected scenario, each with as many points as there are month
    labels.  Dataset number [i] is drawn in colour [i mod 5] of the five
    colours, so the dataset five places further on has the same colours:
    the fifth scenario is drawn in the colours of the baseline. *)
Theorem datasets_shape (h : list number) (p : number)
    (l : list SpellConfig) :
  length (datasets h p l) = S (length l)
  /\ Forall (fun d => length (data d) = length MONTHS) (datasets h p l)
  /\ (forall (i : nat) (d : Dataset),
        datasets h p l !! i = Some d ->
        exists col : Color,
          colors !! (i mod 5)%nat = Some col
          /\ borderColor d = border col
          /\ backgroundColor d = background col
          /\ pointBackgroundColor d = border col)
  /\ (forall (i : nat) (d d' : Dataset),
        datasets h p l !! i = Some d ->
        datasets h p l !! (i + 5)%nat = Some d' ->
        borderColor d' = borderColor d
        /\ backgroundColor d' = backgroundColor d
        /\ pointBackgroundColor d' = pointBackgroundColor d).
Proof.
  assert (Hcol : forall (i : nat) (d : Dataset),
            datasets h p l !! i = Some d ->
            borderColor d = border (color_at (i mod 5))
            /\ backgroundColor d = background (color_at (i mod 5))
            /\ pointBackgroundColor d = border (color_at (i mod 5))).
  { intros [|i] d Hd.
    - cbn in Hd. injection Hd as <-. repeat split.
    - unfold datasets in Hd. rewrite lookup_cons in Hd.
      rewrite list_lookup_imap in Hd.
      destruct (l !! i) as [c|]; [|discriminate].
      cbn [fmap option_fmap option_map] in Hd. injection Hd as <-.
      cbn [borderColor backgroundColor pointBackgroundColor].
      change (length colors) with 5%nat.
      replace (i + 1)%nat with (S i) by lia. repeat split. }
  split; [unfold datasets; cbn [length]; rewrite length_imap; reflexivity|].
  split.
  { unfold datasets. constructor.
    - cbn [data]. apply generateBaselineData_length.
    - apply Forall_lookup. intros i d Hd.
      rewrite list_lookup_imap in Hd.
      destruct (l !! i) as [c|]; [|discriminate].
      cbn [fmap option_fmap option_map] in Hd. injection Hd as <-.
      cbn [data]. apply generateSpellData_length. }
  split.
  { intros i d Hd. destruct (Hcol i d Hd) as (H1 & H2 & H3).
    exists (color_at (i mod 5)). split; [|auto].
    apply color_at_lookup. apply Nat.mod_upper_bound. discriminate. }
  intros i d d' Hd Hd'.
  destruct (Hcol i d Hd) as (H1 & H2 & H3).
  destruct (Hcol (i + 5)%nat d' Hd') as (H1' & H2' & H3').
  replace ((i + 5) mod 5)%nat with (i mod 5)%nat in H1', H2', H3'.
  - rewrite H1, H2, H3, H1', H2', H3'. repeat split.
  - replace (i + 5)%nat with (i + 1 * 5)%nat by lia.
    rewrite Nat.Div0.mod_add. reflexivity.
Qed.

Lemma datasets_shape_witness :
  let scenario := {| spell := SPELL_OPTIONS TIRE; month := 8; id := 0 |} in
  let l := replicate 5 scenario in
  exists d d' : Dataset,
    datasets INITIAL_DRIVING_HOURS (of_Z 76) l !! 0%nat = Some d
    /\ datasets INITIAL_DRIVING_HOURS (of_Z 76) l !! 5%nat = Some d'
    /\ ds_label d = "Without Spells"%string
    /\ ds_label d' = "With Tire Spell (September)"%string
    /\ borderColor d' = borderColor d.
Proof.
  intros scenario l.
  destruct (datasets INITIAL_DRIVING_HOURS (of_Z 76) l !! 0%nat)
    as [d|] eqn:Hd; [|discriminate].
  destruct (datasets INITIAL_DRIVING_HOURS (of_Z 76) l !! 5%nat)
    as [d'|] eqn:Hd'; [|discriminate].
  exists d, d'. split; [reflexivity|]. split; [reflexivity|].
  destruct (datasets_shape INITIAL_DRIVING_HOURS (of_Z 76) l)
    as (_ & _ & _ & Hsame).
  destruct (Hsame 0%nat d d' Hd Hd') as (Hb & _ & _).
  cbn in Hd, Hd'. injection Hd as <-. injection Hd' as <-.
  split; [reflexivity|]. split; [reflexivity|]. exact Hb.
Defined.

(** ** The risk assessment of the earlier version *)

Lemma risk_max (a k : SpellKey) :
  Math_max (Earlier.risk (Earlier.SPELL_OPTIONS a))
           (Earlier.risk (Earlier.SPELL_OPTIONS k))
  = Earlier.risk (Earlier.SPELL_OPTIONS
                    (if (risk_rank a <? risk_rank k)%nat then k else a)).
Proof. destruct a, k; vm_compute; reflexivity. Qed.

Lemma risk_fold (cfgs : list Earlier.SpellConfig) (keys : list SpellKey) :
  Forall2 (fun c k => Earlier.spell c = Earlier.SPELL_OPTIONS k) cfgs keys ->
  forall (a : SpellKey) (n : nat),
  exists w : SpellKey,
    (w = a \/ w ∈ keys)
    /\ (risk_rank a <= risk_rank w)%nat
    /\ (forall k, k ∈ keys -> (risk_rank k <= risk_rank w)%nat)
    /\ reduce_from (fun maxRisk spellConfig (_ : nat) =>
                      Math_max maxRisk (Earlier.risk (Earlier.spell spellConfig)))
                   n cfgs (Earlier.risk (Earlier.SPELL_OPTIONS a))
       = Earlier.risk (Earlier.SPELL_OPTIONS w).
Proof.
  induction 1 as [|c k cfgs keys Hc Hrest IH]; intros a n.
  - exists a. split; [left; reflexivity|]. split; [lia|].
    split; [|reflexivity]. intros k Hk. inversion Hk.
  - cbn [reduce_from]. rewrite Hc, risk_max.
    destruct (IH (if (risk_rank a <? risk_rank k)%nat then k else a) (S n))
      as (w & Hw & Hge & Hall & Hfold).
    exists w. rewrite Hfold.
    destruct (Nat.ltb_spec (risk_rank a) (risk_rank k)) as [Hlt|Hle].
    + split.
      { destruct Hw as [->|Hw]; right;
          [apply list_elem_of_here|apply list_elem_of_further; exact Hw]. }
      split; [lia|]. split; [|reflexivity].
      intros k' Hk'. apply elem_of_cons in Hk' as [->|Hk'];
        [exact Hge|apply Hall; exact Hk'].
    + split.
      { destruct Hw as [->|Hw]; [left; reflexivity|right].
        apply list_elem_of_further. exact Hw. }
      split; [exact Hge|]. split; [|reflexivity].
      intros k' Hk'. apply elem_of_cons in Hk' as [->|Hk'];
        [lia|apply Hall; exact Hk'].
Qed.

(** X18.  In the earlier version, the risk assessment of scenarios taken
    from the catalog is decided by the riskiest spell among them, whatever
    their number, order and months: "No Additional Risk" when all are
    [NONE] or none is selected, then "Low Risk" for [TIRE], "Medium Risk"
    for [ENGINE] and "High Risk" for [BOTH]. *)
Theorem getRiskAssessment_riskiest (cfgs : list Earlier.SpellConfig)
    (keys : list SpellKey) :
  Forall2 (fun c k => Earlier.spell c = Earlier.SPELL_OPTIONS k) cfgs keys ->
  exists w : SpellKey,
    (w = NONE \/ w ∈ keys)
    /\ (forall k, k ∈ keys -> (risk_rank k <= risk_rank w)%nat)
    /\ Earlier.getRiskAssessment cfgs = risk_text w.
Proof.
  intros H. destruct (risk_fold cfgs keys H NONE 0%nat)
    as (w & Hw & _ & Hall & Hfold).
  exists w. split; [exact Hw|]. split; [exact Hall|].
  change (Earlier.risk (Earlier.SPELL_OPTIONS NONE)) with (of_Z 0) in Hfold.
  unfold Earlier.getRiskAssessment, reduce. cbv zeta.
  rewrite Hfold. destruct w; vm_compute; reflexivity.
Qed.

Lemma getRiskAssessment_riskiest_witness :
  exists w : SpellKey,
    (w = NONE \/ w ∈ [TIRE; ENGINE; TIRE])
    /\ (forall k, k ∈ [TIRE; ENGINE; TIRE] -> (risk_rank k <= risk_rank w)%nat)
    /\ Earlier.getRiskAssessment
         [ {| Earlier.spell := Earlier.SPELL_OPTIONS TIRE;
              Earlier.month := 6; Earlier.id := 1 |};
           {| Earlier.spell := Earlier.SPELL_OPTIONS ENGINE;
              Earlier.month := 7; Earlier.id := 2 |};
           {| Earlier.spell := Earlier.SPELL_OPTIONS TIRE;
              Earlier.month := 9; Earlier.id := 3 |} ]
       = risk_text w.
Proof.
  apply getRiskAssessment_riskiest.
  repeat constructor.
Defined.

(** * Properties of the binary64 embedding *)

(** ** Rounding *)

Lemma pow2_pos (e : Z) : (0 < F64.pow2 e)%Q.
Proof. destruct e; reflexivity. Qed.

Lemma pow2_nonneg_eq (e : Z) : 0 <= e -> F64.pow2 e = inject_Z (2 ^ e).
Proof.
  destruct e as [|p|p]; intros H; try lia; [reflexivity|].
  unfold F64.pow2. rewrite Pos2Z.inj_pow. reflexivity.
Qed.

Lemma pow2_neg_inv (k : Z) :
  0 <= k -> (inject_Z (2 ^ k) * F64.pow2 (- k) == 1)%Q.
Proof.
  destruct k as [|p|p]; intros H; try lia; [reflexivity|].
  change (- Z.pos p) with (Z.neg p).
  unfold Qeq, Qmult, inject_Z, F64.pow2. cbn [Qnum Qden].
  rewrite Pos.mul_1_l, Pos2Z.inj_pow. lia.
Qed.

Lemma nearest_even_comp (x y : Q) :
  (x == y)%Q -> F64.nearest_even x = F64.nearest_even y.
Proof.
  intros E. unfold F64.nearest_even.
  assert (Ef : Qfloor x = Qfloor y) by (apply Qfloor_comp; exact E).
  rewrite Ef.
  assert (Ec : (x - inject_Z (Qfloor y) ?= 1 # 2)%Q
               = (y - inject_Z (Qfloor y) ?= 1 # 2)%Q).
  { apply Qcompare_comp; [|reflexivity]. rewrite E. reflexivity. }
  rewrite Ec. reflexivity.
Qed.

Lemma nearest_even_Z (z : Z) : F64.nearest_even (inject_Z z) = z.
Proof.
  unfold F64.nearest_even. rewrite Qfloor_Z.
  assert (E : (inject_Z z - inject_Z z ?= 1 # 2)%Q = Lt).
  { apply (proj1 (Qlt_alt _ _)). generalize (inject_Z z). intros q. lra. }
  rewrite E. reflexivity.
Qed.

Lemma nearest_even_nonneg (q : Q) : (0 <= q)%Q -> 0 <= F64.nearest_even q.
Proof.
  intros H. unfold F64.nearest_even.
  assert (Hf : 0 <= Qfloor q).
  { change 0 with (Qfloor (inject_Z 0)). apply Qfloor_resp_le. exact H. }
  destruct (q - inject_Z (Qfloor q) ?= 1 # 2)%Q; [|lia|lia].
  destruct (Z.even (Qfloor q)); lia.
Qed.

Lemma round_pos_cases (q : Q) :
  (0 < q)%Q ->
  F64.round_pos q = PInf
  \/ exists r : Q, F64.round_pos q = Fin r /\ (0 <= r)%Q.
Proof.
  intros Hq. unfold F64.round_pos.
  set (ulp := F64.pow2 (Z.max (F64.binade q) (-1022) - 52)).
  assert (Hulp : (0 < ulp)%Q) by apply pow2_pos.
  destruct (Qle_bool (F64.pow2 1024)
              (inject_Z (F64.nearest_even (q / ulp)) * ulp)); [left; reflexivity|].
  right. eexists. split; [reflexivity|]. rewrite Qred_correct.
  apply Qmult_le_0_compat; [|apply Qlt_le_weak; exact Hulp].
  change 0%Q with (inject_Z 0). rewrite <- Zle_Qle.
  apply nearest_even_nonneg. apply Qlt_le_weak.
  apply Qlt_shift_div_l; [exact Hulp|]. lra.
Qed.

Lemma round64_not_NaN (q : Q) : F64.round64 q <> NaN.
Proof.
  unfold F64.round64. destruct (q ?= 0)%Q eqn:C; [discriminate| |].
  - apply (proj2 (Qlt_alt _ _)) in C.
    assert (H : (0 < - q)%Q) by lra.
    destruct (round_pos_cases _ H) as [->|(r & -> & _)]; discriminate.
  - apply (proj2 (Qgt_alt _ _)) in C.
    destruct (round_pos_cases _ C) as [->|(r & -> & _)]; discriminate.
Qed.

Lemma round64_nonneg (q : Q) : (0 <= q)%Q -> nonneg (F64.round64 q).
Proof.
  intros H. unfold F64.round64. destruct (q ?= 0)%Q eqn:C.
  - cbn. lra.
  - apply (proj2 (Qlt_alt _ _)) in C. lra.
  - apply (proj2 (Qgt_alt _ _)) in C.
    destruct (round_pos_cases _ C) as [->|(r & -> & Hr)]; [exact I|exact Hr].
Qed.

Lemma rnd_nonneg (x : number) : nonneg x -> nonneg (F64.rnd x).
Proof.
  destruct x as [q| | |]; cbn [F64.rnd]; try tauto. apply round64_nonneg.
Qed.

(** Integers below [2^53] in magnitude are binary64 values. *)
Lemma round_pos_Z (n : Z) :
  0 < n < 2 ^ 53 -> F64.round_pos (inject_Z n) = Fin (inject_Z n).
Proof.
  intros Hn. unfold F64.round_pos.
  assert (Ha : 0 <= Z.log2 n < 53).
  { split; [apply Z.log2_nonneg|]. apply Z.log2_lt_pow2; lia. }
  assert (Hb : F64.binade (inject_Z n) = Z.log2 n).
  { unfold F64.binade. cbn [Qnum Qden inject_Z]. change (Z.log2 1) with 0.
    rewrite Z.sub_0_r, pow2_nonneg_eq by lia.
    assert (Hle : Qle_bool (inject_Z (2 ^ Z.log2 n)) (inject_Z n) = true).
    { apply Qle_bool_iff. rewrite <- Zle_Qle. apply Z.log2_spec. lia. }
    rewrite Hle. reflexivity. }
  rewrite Hb. rewrite Z.max_l by lia.
  set (k := 52 - Z.log2 n).
  replace (Z.log2 n - 52) with (- k) by (unfold k; lia).
  assert (Hk : 0 <= k) by (unfold k; lia).
  pose proof (pow2_neg_inv k Hk) as Hinv.
  pose proof (pow2_pos (- k)) as Hpos.
  assert (Hq : (inject_Z n / F64.pow2 (- k) == inject_Z (n * 2 ^ k))%Q).
  { rewrite inject_Z_mult.
    transitivity (inject_Z n * (inject_Z (2 ^ k) * F64.pow2 (- k))
                  / F64.pow2 (- k))%Q.
    - rewrite Hinv, Qmult_1_r. reflexivity.
    - field. intros E. rewrite E in Hpos. discriminate. }
  rewrite (nearest_even_comp _ _ Hq), nearest_even_Z.
  assert (Hr : (inject_Z (n * 2 ^ k) * F64.pow2 (- k) == inject_Z n)%Q).
  { rewrite inject_Z_mult, <- Qmult_assoc, Hinv. ring. }
  assert (Hsmall : Qle_bool (F64.pow2 1024)
                     (inject_Z (n * 2 ^ k) * F64.pow2 (- k)) = false).
  { apply Qle_bool_false. rewrite Hr.
    change (F64.pow2 1024) with (inject_Z (2 ^ 1024)).
    rewrite <- Zlt_Qlt.
    assert (2 ^ 53 < 2 ^ 1024) by (apply Z.pow_lt_mono_r; lia). lia. }
  rewrite Hsmall. f_equal.
  rewrite (Qred_complete _ _ Hr). apply Qcanon.Qred_identity.
  cbn. apply Z.gcd_1_r.
Qed.

Lemma round64_Z (n : Z) :
  - 2 ^ 53 < n < 2 ^ 53 -> F64.round64 (inject_Z n) = Fin (inject_Z n).
Proof.
  intros Hn. unfold F64.round64.
  destruct (inject_Z n ?= 0)%Q eqn:C.
  - apply (proj2 (Qeq_alt _ _)) in C.
    assert (E : n = 0) by (unfold Qeq in C; cbn in C; lia).
    subst n. reflexivity.
  - apply (proj2 (Qlt_alt _ _)) in C. change 0%Q with (inject_Z 0) in C.
    rewrite <- Zlt_Qlt in C.
    change (- inject_Z n)%Q with (inject_Z (- n)).
    rewrite round_pos_Z by lia. cbn [neg]. f_equal.
    unfold inject_Z, Qopp. cbn. rewrite Z.opp_involutive. reflexivity.
  - apply (proj2 (Qgt_alt _ _)) in C. change 0%Q with (inject_Z 0) in C.
    rewrite <- Zlt_Qlt in C. apply round_pos_Z. lia.
Qed.

(** ** The rounded operations *)

Lemma add_inject_Z (a b : Z) : (inject_Z a + inject_Z b)%Q = inject_Z (a + b).
Proof. unfold Qplus, inject_Z. cbn. rewrite !Z.mul_1_r. reflexivity. Qed.

Lemma opp_inject_Z (a : Z) : (- inject_Z a)%Q = inject_Z (- a).
Proof. reflexivity. Qed.

Lemma add64_Z (a b : Z) :
  - 2 ^ 53 < a + b < 2 ^ 53 -> F64.add (of_Z a) (of_Z b) = of_Z (a + b).
Proof.
  intros H. unfold F64.add, of_Z. cbn [JS.add F64.rnd].
  rewrite add_inject_Z. apply round64_Z. exact H.
Qed.

Lemma sub64_Z (a b : Z) :
  - 2 ^ 53 < a - b < 2 ^ 53 -> F64.sub (of_Z a) (of_Z b) = of_Z (a - b).
Proof.
  intros H. unfold F64.sub, JS.sub, of_Z. cbn [JS.add JS.neg F64.rnd].
  rewrite opp_inject_Z, add_inject_Z. apply round64_Z. exact H.
Qed.

Lemma mul64_Z (a b : Z) :
  - 2 ^ 53 < a * b < 2 ^ 53 -> F64.mul (of_Z a) (of_Z b) = of_Z (a * b).
Proof.
  intros H. unfold F64.mul, of_Z. cbn [JS.mul F64.rnd].
  change (inject_Z a * inject_Z b)%Q with (inject_Z (a * b)).
  apply round64_Z. exact H.
Qed.

Lemma Math_max_Z (a b : Z) : Math_max (of_Z a) (of_Z b) = of_Z (Z.max a b).
Proof.
  unfold of_Z, Math_max, ge.
  destruct (Qle_bool (inject_Z b) (inject_Z a)) eqn:E.
  - apply Qle_bool_iff in E. rewrite <- Zle_Qle in E.
    rewrite Z.max_l by exact E. reflexivity.
  - apply Qle_bool_false in E. rewrite <- Zlt_Qlt in E.
    rewrite Z.max_r by lia. reflexivity.
Qed.

Lemma add64_nonneg (x y : number) :
  nonneg x -> nonneg y -> nonneg (F64.add x y).
Proof. intros Hx Hy. apply rnd_nonneg, add_nonneg; assumption. Qed.

(** A number that is not negative times a positive weight. *)
Lemma mul64_weight_nonneg (x : number) (w : Q) :
  nonneg x -> (0 < w)%Q -> nonneg (F64.mul x (Fin w)).
Proof.
  intros Hx Hw. apply rnd_nonneg.
  destruct x as [a| | |]; cbn in Hx |- *; try contradiction.
  - apply Qmult_le_0_compat; [exact Hx|apply Qlt_le_weak; exact Hw].
  - unfold scale_inf. rewrite (proj1 (Qgt_alt w 0) Hw). exact I.
Qed.

Lemma div64_nonneg (x : number) (d : Q) :
  nonneg x -> (0 < d)%Q -> nonneg (F64.div x (Fin d)).
Proof.
  intros Hx Hd. apply rnd_nonneg.
  destruct x as [a| | |]; cbn in Hx |- *; try contradiction.
  - rewrite (proj1 (Qgt_alt d 0) Hd). cbn.
    apply Qle_shift_div_l; [exact Hd|]. lra.
  - rewrite (proj1 (Qgt_alt d 0) Hd). exact I.
Qed.

(** ** C9: the monthly cost clamp in binary64 *)

Lemma Math_max_0_NaN (y : number) : Math_max (of_Z 0) y = NaN -> y = NaN.
Proof.
  destruct y as [q| | |]; cbn; try discriminate; [|reflexivity].
  destruct (Qle_bool q (inject_Z 0)); discriminate.
Qed.

Lemma calculateMonthlyCost64_nonneg (x r : Q) :
  nonneg (F64.calculateMonthlyCost (Fin x) (Some (Fin r))).
Proof.
  unfold F64.calculateMonthlyCost. cbn [default].
  destruct (Math_max_0_cases (F64.mul (Fin x) (Fin r))) as [H|H]; [|exact H].
  apply Math_max_0_NaN in H. exfalso. revert H. apply round64_not_NaN.
Qed.

(** C9, as the code has it.  For all finite [x] and [r], also negative
    ones, [calculateMonthlyCost x r] is [max 0] of the binary64 product of
    [x] and [r], that is of [x * r] rounded to the nearest binary64 value
    or to an infinity; it is never negative and never [NaN].  On integers
    whose product is below [2^53] in magnitude the product is exact. *)
Theorem calculateMonthlyCost_clamp_binary64 (x r : Q) :
  F64.calculateMonthlyCost (Fin x) (Some (Fin r))
  = Math_max (of_Z 0) (F64.round64 (x * r))
  /\ nonneg (F64.calculateMonthlyCost (Fin x) (Some (Fin r)))
  /\ (F64.calculateMonthlyCost (Fin x) (Some (Fin r)) >=? of_Z 0)%js = true
  /\ F64.calculateMonthlyCost (Fin x) None
     = Math_max (of_Z 0) (F64.round64 (x * 100))
  /\ forall a b : Z, - 2 ^ 53 < a * b < 2 ^ 53 ->
       F64.calculateMonthlyCost (of_Z a) (Some (of_Z b))
       = of_Z (Z.max 0 (a * b)).
Proof.
  split; [reflexivity|]. split; [apply calculateMonthlyCost64_nonneg|].
  split; [apply ge_0_nonneg, calculateMonthlyCost64_nonneg|].
  split; [reflexivity|].
  intros a b H.
  change (F64.calculateMonthlyCost (of_Z a) (Some (of_Z b)))
    with (Math_max (of_Z 0) (F64.mul (of_Z a) (of_Z b))).
  rewrite mul64_Z by exact H. apply Math_max_Z.
Qed.

Lemma calculateMonthlyCost_clamp_binary64_witness :
  F64.calculateMonthlyCost (of_Z 76) (Some (of_Z 83)) = of_Z (Z.max 0 (76 * 83)).
Proof.
  apply (calculateMonthlyCost_clamp_binary64 0 0). cbn. lia.
Defined.

(** C9 as the specification states it fails: the cost of 0.1 hours at
    rate 3 is the binary64 number 0.30000000000000004, which is not
    [max 0] of the exact product of the two arguments. *)
Lemma calculateMonthlyCost_not_exact_product :
  let x := (3602879701896397 # 36028797018963968)%Q in
  F64.lit (1 # 10) = Fin x
  /\ F64.calculateMonthlyCost (Fin x) (Some (of_Z 3))
     = Fin (1351079888211149 # 4503599627370496)
  /\ ~ num_eq (F64.calculateMonthlyCost (Fin x) (Some (of_Z 3)))
              (Fin (Qmax 0 (x * 3))).
Proof.
  cbv zeta. split; [vm_compute; reflexivity|].
  split; [vm_compute; reflexivity|].
  intros H. vm_compute in H. discriminate H.
Qed.

(** ** C1: the forecast in binary64 *)

Lemma every_dense {A : Type} (f : A -> bool) (l : list A) :
  F64.every f (Some <$> l) = forallb f l.
Proof.
  unfold F64.every. induction l as [|x l IH]; [reflexivity|].
  cbn. rewrite <- IH. reflexivity.
Qed.

Lemma is_number_ge0_numbers64 (l : list number) :
  forallb F64.is_number_ge0 (F64.VNumber <$> l) = true <-> Forall nonneg l.
Proof.
  induction l as [|n l IH]; cbn.
  - split; [constructor|reflexivity].
  - rewrite andb_true_iff, Forall_cons, ge_0_nonneg, IH. reflexivity.
Qed.

Lemma predictFutureHours64_accepted (l : list (option F64.value)) :
  l <> [] -> F64.every F64.is_number_ge0 l = true ->
  F64.predictFutureHours (F64.VArray l) =
  Return (Math_round
    (F64.div
       (F64.reduce (fun sum hour index =>
                      F64.add sum (F64.mul (F64.ToNumber hour)
                                           (of_nat (index + 1))))
                   (slice_last 3 l) (of_Z 0))
       (F64.reduce (fun sum (_ : F64.value) index =>
                      F64.add sum (of_nat (index + 1)))
                   (slice_last 3 l) (of_Z 0)))).
Proof.
  intros Hne Hall. unfold F64.predictFutureHours, F64.validateHours.
  destruct l as [|x l]; [contradiction|].
  cbn [F64.Array_isArray F64.elements_of negb orb length Nat.eqb mbind
       result_bind].
  rewrite Hall. reflexivity.
Qed.

Lemma reduce64_weighted_sum (w : list Q) : forall (k : nat) (acc : number),
  F64.reduce_from (fun sum hour index =>
                     F64.add sum (F64.mul (F64.ToNumber hour)
                                          (of_nat (index + 1))))
                  k (Some <$> (F64.VNumber <$> (Fin <$> w))) acc
  = weighted_sum64 (Z.of_nat k + 1) acc w.
Proof.
  induction w as [|v w IH]; intros k acc; [reflexivity|].
  cbn [fmap list_fmap F64.reduce_from weighted_sum64 F64.ToNumber].
  rewrite IH. unfold of_nat.
  replace (Z.of_nat (k + 1)) with (Z.of_nat k + 1) by lia.
  replace (Z.of_nat (S k) + 1) with (Z.of_nat k + 1 + 1) by lia.
  reflexivity.
Qed.

Lemma reduce64_weight_total (w : list Q) : forall (k : nat) (acc : number),
  F64.reduce_from (fun sum (_ : F64.value) index =>
                     F64.add sum (of_nat (index + 1)))
                  k (Some <$> (F64.VNumber <$> (Fin <$> w))) acc
  = weight_total64 (Z.of_nat k + 1) acc w.
Proof.
  induction w as [|v w IH]; intros k acc; [reflexivity|].
  cbn [fmap list_fmap F64.reduce_from weight_total64].
  rewrite IH. unfold of_nat.
  replace (Z.of_nat (k + 1)) with (Z.of_nat k + 1) by lia.
  replace (Z.of_nat (S k) + 1) with (Z.of_nat k + 1 + 1) by lia.
  reflexivity.
Qed.

Lemma slice_last_numbers64 (qs : list Q) :
  slice_last 3 (Some <$> (F64.VNumber <$> (Fin <$> qs)))
  = Some <$> (F64.VNumber <$> (Fin <$> last_three qs)).
Proof.
  unfold slice_last. rewrite !length_fmap, last_three_drop, !fmap_drop.
  reflexivity.
Qed.

(** C1, as the code has it.  For every non-empty series of non-negative
    finite numbers, [predictFutureHours] takes the last three values (all
    of them if there are fewer), forms their weighted average with weights
    1, 2, ... in binary64 arithmetic, every product, sum and the quotient
    rounded, and returns the integer nearest to that binary64 average, a
    tie going to the larger integer; for [23, 48, 43, 29, 50, 108] it
    returns 76. *)
Theorem predictFutureHours_weighted_average_binary64 (qs : list Q) :
  qs <> [] -> Forall (fun q => (0 <= q)%Q) qs ->
  let window := last_three qs in
  F64.predictFutureHours (F64.array_of (Fin <$> qs))
  = Return (Math_round (weighted_average64 window))
  /\ (forall x : Q, weighted_average64 window = Fin x ->
        exists r : Z,
          F64.predictFutureHours (F64.array_of (Fin <$> qs)) = Return (of_Z r)
          /\ (x - (1 # 2) < inject_Z r)%Q
          /\ (inject_Z r <= x + (1 # 2))%Q)
  /\ window `suffix_of` qs
  /\ length window = Nat.min 3 (length qs)
  /\ F64.predictFutureHours (F64.array_of INITIAL_DRIVING_HOURS)
     = Return (of_Z 76).
Proof.
  intros Hne Hall window.
  assert (Hw : window = drop (length qs - 3) qs) by apply last_three_drop.
  assert (E : F64.predictFutureHours (F64.array_of (Fin <$> qs))
              = Return (Math_round (weighted_average64 window))).
  { unfold F64.array_of, F64.dense. rewrite predictFutureHours64_accepted.
    - rewrite slice_last_numbers64. unfold F64.reduce.
      rewrite reduce64_weighted_sum, reduce64_weight_total. reflexivity.
    - destruct qs; [contradiction|discriminate].
    - rewrite every_dense. apply is_number_ge0_numbers64. apply Forall_fmap.
      eapply Forall_impl; [exact Hall|]. intros q Hq. exact Hq. }
  split; [exact E|]. split.
  { intros x Hx. rewrite E, Hx. eexists. split; [reflexivity|].
    apply nearest_integer_bounds. reflexivity. }
  split; [rewrite Hw; apply suffix_drop|].
  split; [rewrite Hw, length_drop; lia|].
  vm_compute. reflexivity.
Qed.

Lemma predictFutureHours_weighted_average_binary64_witness :
  F64.predictFutureHours (F64.array_of (Fin <$> [4 # 1; 7 # 2]))
  = Return (Math_round (weighted_average64 (last_three [4 # 1; 7 # 2]))).
Proof.
  refine (proj1 (predictFutureHours_weighted_average_binary64
                   [4 # 1; 7 # 2] _ _)).
  - discriminate.
  - repeat constructor; discriminate.
Defined.

(** C1 as the specification states it fails: on the hours 16.9, 13 and
    2.7 the code returns 9, while the integer nearest to the weighted
    average of these three numbers is 8. *)
Lemma predictFutureHours_not_nearest_to_exact_average :
  let a := (2378463553205043 # 140737488355328)%Q in
  let c := (3039929748475085 # 1125899906842624)%Q in
  F64.lit (169 # 10) = Fin a
  /\ F64.lit (27 # 10) = Fin c
  /\ F64.predictFutureHours (F64.array_of (Fin <$> [a; 13%Q; c]))
     = Return (of_Z 9)
  /\ Qfloor (weighted_average (last_three [a; 13%Q; c]) + (1 # 2)) = 8.
Proof. cbv zeta. repeat split; vm_compute; reflexivity. Qed.

(** ** C5: arrays with holes *)

(** C5.  An array of three holes has length 3 and no element: it passes
    [validateHours] and [predictFutureHours] returns [NaN] for it instead
    of throwing; and the hole of [[5, , 7]] is skipped, the forecast
    being 7. *)
Theorem predictFutureHours_holes :
  F64.validateHours (F64.VArray [None; None; None]) = Return true
  /\ F64.predictFutureHours (F64.VArray [None; None; None]) = Return NaN
  /\ F64.predictFutureHours
       (F64.VArray [Some (F64.VNumber (of_Z 5)); None;
                    Some (F64.VNumber (of_Z 7))])
     = Return (of_Z 7).
Proof. repeat split; vm_compute; reflexivity. Qed.

(** ** The forecast over arrays with holes *)

Lemma predictFutureHours64_not_sequence (v : F64.value) :
  F64.Array_isArray v = false \/ length (F64.elements_of v) = 0%nat ->
  F64.predictFutureHours v = Throw (mkError "Invalid driving hours data").
Proof.
  intros [H|H].
  - destruct v; try reflexivity. discriminate.
  - destruct v as [| | | | |l|]; try reflexivity.
    cbn in H. destruct l; [reflexivity|discriminate].
Qed.

Lemma predictFutureHours64_rejected (l : list (option F64.value)) :
  l <> [] -> F64.every F64.is_number_ge0 l = false ->
  F64.predictFutureHours (F64.VArray l) = Throw (mkError "Invalid hours data").
Proof.
  intros Hne Hall. unfold F64.predictFutureHours, F64.validateHours.
  destruct l as [|x l]; [contradiction|].
  cbn [F64.Array_isArray F64.elements_of negb orb length Nat.eqb mbind
       result_bind].
  rewrite Hall. reflexivity.
Qed.

Lemma every_false_Exists {A : Type} (f : A -> bool) (l : list (option A)) :
  F64.every f l = false
  <-> Exists (fun e => exists x, e = Some x /\ f x = false) l.
Proof.
  unfold F64.every. induction l as [|e l IH]; cbn.
  - split; [discriminate|]. intros H. inversion H.
  - rewrite andb_false_iff, Exists_cons, IH.
    destruct e as [x|].
    + split; intros [H|H]; auto.
      * left. exists x. auto.
      * destruct H as (y & [= <-] & Hy). left. exact Hy.
    + split; intros [H|H]; auto; try discriminate.
      destruct H as (y & Hy & _). discriminate.
Qed.

Lemma predictFutureHours64_Return_inv (v : F64.value) (r : number) :
  F64.predictFutureHours v = Return r ->
  exists l : list (option F64.value),
    v = F64.VArray l /\ l <> [] /\ F64.every F64.is_number_ge0 l = true.
Proof.
  intros H. destruct v as [| | | | |l|];
    try (rewrite predictFutureHours64_not_sequence in H
           by (left; reflexivity); discriminate).
  exists l. split; [reflexivity|].
  destruct l as [|x l].
  - rewrite predictFutureHours64_not_sequence in H by (right; reflexivity).
    discriminate.
  - split; [discriminate|].
    destruct (F64.every F64.is_number_ge0 (x :: l)) eqn:E; [reflexivity|].
    rewrite predictFutureHours64_rejected in H by (discriminate || exact E).
    discriminate.
Qed.

(** X20.  Over arrays that may have holes, [predictFutureHours] throws
    exactly when its argument is not an array, has length 0, or has an
    element, holes apart, that is not a number at least 0: "Invalid
    driving hours data" in the first two cases, "Invalid hours data" in
    the third.  Holes are never a reason to throw. *)
Theorem predictFutureHours64_throws_iff :
  (forall v : F64.value,
     (exists e, F64.predictFutureHours v = Throw e) <->
     (F64.Array_isArray v = false \/ length (F64.elements_of v) = 0%nat
      \/ Exists (fun e => exists x, e = Some x /\ F64.is_number_ge0 x = false)
                (F64.elements_of v)))
  /\ (forall v : F64.value,
        F64.Array_isArray v = false \/ length (F64.elements_of v) = 0%nat ->
        F64.predictFutureHours v
        = Throw (mkError "Invalid driving hours data"))
  /\ (forall l : list (option F64.value),
        Exists (fun e => exists x, e = Some x /\ F64.is_number_ge0 x = false) l ->
        F64.predictFutureHours (F64.VArray l)
        = Throw (mkError "Invalid hours data")).
Proof.
  assert (Hbad : forall l : list (option F64.value),
            Exists (fun e => exists x, e = Some x /\ F64.is_number_ge0 x = false) l ->
            F64.predictFutureHours (F64.VArray l)
            = Throw (mkError "Invalid hours data")).
  { intros l Hex. apply predictFutureHours64_rejected.
    - intros ->. inversion Hex.
    - apply every_false_Exists. exact Hex. }
  split; [|split; [apply predictFutureHours64_not_sequence|exact Hbad]].
  intros v. split.
  - intros [e He].
    destruct (F64.Array_isArray v) eqn:Harr; [|left; reflexivity].
    right. destruct v as [| | | | |l|]; try discriminate. cbn.
    destruct l as [|x l]; [left; reflexivity|]. right.
    destruct (F64.every F64.is_number_ge0 (x :: l)) eqn:Hall.
    + rewrite predictFutureHours64_accepted in He by (discriminate || exact Hall).
      discriminate.
    + apply every_false_Exists. exact Hall.
  - intros [H|[H|H]].
    + eexists. apply predictFutureHours64_not_sequence. left. exact H.
    + eexists. apply predictFutureHours64_not_sequence. right. exact H.
    + destruct v as [| | | | |l|]; cbn in H; try (inversion H; fail).
      eexists. apply Hbad. exact H.
Qed.

Lemma predictFutureHours64_throws_iff_witness :
  F64.predictFutureHours
    (F64.VArray [Some (F64.VNumber (of_Z 5)); None; Some (F64.VString "7")])
  = Throw (mkError "Invalid hours data").
Proof.
  apply (proj2 (proj2 predictFutureHours64_throws_iff)).
  apply Exists_cons_tl, Exists_cons_tl, Exists_cons_hd.
  eexists. split; reflexivity.
Defined.

Lemma reduce64_holes {A B : Type} (f : B -> A -> nat -> B)
    (w : list (option A)) : forall (k : nat) (acc : B),
  Forall (fun e => e = None) w -> F64.reduce_from f k w acc = acc.
Proof.
  induction w as [|e w IH]; intros k acc H; [reflexivity|].
  apply Forall_cons in H as [-> H]. cbn. apply IH. exact H.
Qed.

Lemma accepted_nonneg (x : F64.value) :
  F64.is_number_ge0 x = true -> nonneg (F64.ToNumber x).
Proof.
  destruct x as [| | |n| | |]; try discriminate. cbn.
  apply ge_0_nonneg.
Qed.

Lemma numerator64_nonneg (w : list (option F64.value)) :
  forall (k : nat) (acc : number),
    F64.every F64.is_number_ge0 w = true -> nonneg acc ->
    nonneg (F64.reduce_from
              (fun sum hour index =>
                 F64.add sum (F64.mul (F64.ToNumber hour) (of_nat (index + 1))))
              k w acc).
Proof.
  induction w as [|e w IH]; intros k acc Hall Hacc; [exact Hacc|].
  unfold F64.every in Hall. cbn [forallb] in Hall.
  apply andb_true_iff in Hall as [He Hw].
  destruct e as [x|]; cbn [F64.reduce_from].
  - apply IH; [exact Hw|]. apply add64_nonneg; [exact Hacc|].
    apply mul64_weight_nonneg; [apply accepted_nonneg; exact He|].
    unfold of_nat. change 0%Q with (inject_Z 0). rewrite <- Zlt_Qlt. lia.
  - apply IH; assumption.
Qed.

(** With an element present, the weights of a window of at most three
    places add up to a positive number. *)
Lemma denominator64_positive (w : list (option F64.value)) :
  (length w <= 3)%nat -> Exists (fun e => e <> None) w ->
  exists d : Q,
    F64.reduce (fun sum (_ : F64.value) index =>
                  F64.add sum (of_nat (index + 1))) w (of_Z 0) = Fin d
    /\ (0 < d)%Q.
Proof.
  intros Hlen Hex.
  destruct w as [|[a|] [|[b|] [|[c|] [|d w]]]]; cbn [length] in Hlen; try lia;
    try (eexists; split; [vm_compute; reflexivity|reflexivity]);
    exfalso;
    repeat match goal with
    | H : Exists _ (_ :: _) |- _ => apply Exists_cons in H as [H|H]
    | H : Exists _ [] |- _ => inversion H
    | H : None <> None |- _ => apply H; reflexivity
    end.
Qed.

Lemma Math_round_nonneg_number (x : number) :
  nonneg x -> nonneg (Math_round x).
Proof.
  destruct x as [q| | |]; try (cbn; tauto). apply Math_round_nonneg.
Qed.

(** X7.  Over arrays that may have holes and in binary64 arithmetic:
    when the last three places of the array hold an element, whatever
    [predictFutureHours] returns is neither [NaN] nor negative; when they
    are all holes it returns [NaN]. *)
Theorem predictFutureHours64_result (v : F64.value) (r : number) :
  F64.predictFutureHours v = Return r ->
  let window := slice_last 3 (F64.elements_of v) in
  (Exists (fun e => e <> None) window ->
   nonneg r /\ F64.is_number_ge0 (F64.VNumber r) = true)
  /\ (Forall (fun e => e = None) window -> r = NaN).
Proof.
  intros H window.
  destruct (predictFutureHours64_Return_inv _ _ H) as (l & -> & Hne & Hok).
  rewrite predictFutureHours64_accepted in H by assumption.
  injection H as <-. subst window. cbn [F64.elements_of].
  assert (Hw : F64.every F64.is_number_ge0 (slice_last 3 l) = true).
  { unfold F64.every in *. apply forallb_slice_last. exact Hok. }
  split.
  - intros Hex.
    assert (Hr : nonneg (Math_round
      (F64.div
         (F64.reduce (fun sum hour index =>
                        F64.add sum (F64.mul (F64.ToNumber hour)
                                             (of_nat (index + 1))))
                     (slice_last 3 l) (of_Z 0))
         (F64.reduce (fun sum (_ : F64.value) index =>
                        F64.add sum (of_nat (index + 1)))
                     (slice_last 3 l) (of_Z 0))))).
    { destruct (denominator64_positive (slice_last 3 l)) as (d & -> & Hd).
      - rewrite slice_last_length. lia.
      - exact Hex.
      - apply Math_round_nonneg_number, div64_nonneg; [|exact Hd].
        apply numerator64_nonneg; [exact Hw|]. apply Qle_refl. }
    split; [exact Hr|]. apply ge_0_nonneg. exact Hr.
  - intros Hall. unfold F64.reduce.
    rewrite !reduce64_holes by exact Hall. vm_compute. reflexivity.
Qed.

Lemma predictFutureHours64_result_witness :
  nonneg (of_Z 7)
  /\ F64.is_number_ge0 (F64.VNumber (of_Z 7)) = true.
Proof.
  refine (proj1 (predictFutureHours64_result
                   (F64.VArray [Some (F64.VNumber (of_Z 5)); None;
                                Some (F64.VNumber (of_Z 7))])
                   (of_Z 7) _) _).
  - vm_compute. reflexivity.
  - apply Exists_cons_hd. discriminate.
Defined.

(** ** Exact steps on small integers *)

Lemma add64_int (a b : Z) :
  0 <= a -> 0 <= b -> a + b <= 9000000000000000 ->
  F64.add (of_Z a) (of_Z b) = of_Z (a + b).
Proof.
  intros Ha Hb H. apply add64_Z.
  change (2 ^ 53) with 9007199254740992. lia.
Qed.

Lemma sub64_int (a b : Z) :
  0 <= a <= 9000000000000000 -> 0 <= b <= 9000000000000000 ->
  F64.sub (of_Z a) (of_Z b) = of_Z (a - b).
Proof.
  intros Ha Hb. apply sub64_Z.
  change (2 ^ 53) with 9007199254740992. lia.
Qed.

Lemma cost64_int (a r : Z) :
  0 <= a <= 1000000 -> 0 <= r <= 1000000 ->
  F64.calculateMonthlyCost (of_Z a) (Some (of_Z r)) = of_Z (a * r)
  /\ 0 <= a * r <= 1000000000000.
Proof.
  intros Ha Hr.
  assert (Hb : 0 <= a * r <= 1000000000000) by nia.
  split; [|exact Hb].
  change (F64.calculateMonthlyCost (of_Z a) (Some (of_Z r)))
    with (Math_max (of_Z 0) (F64.mul (of_Z a) (of_Z r))).
  rewrite mul64_Z by (change (2 ^ 53) with 9007199254740992; lia).
  rewrite Math_max_Z. f_equal. lia.
Qed.

Lemma cost64_int_base (a : Z) :
  0 <= a <= 1000000 ->
  F64.calculateMonthlyCost (of_Z a) None = of_Z (a * 100)
  /\ 0 <= a * 100 <= 1000000000000.
Proof.
  intros Ha. destruct (cost64_int a 100 Ha ltac:(lia)) as [E Hb].
  split; [exact E|exact Hb].
Qed.

Lemma total64_int (bound : Z) (l : list number) :
  forall (k : nat) (a top : Z),
    0 <= bound -> 0 <= a <= top ->
    top + Z.of_nat (length l) * bound <= 9000000000000000 ->
    Forall (int_upto bound) l ->
    int_upto (top + Z.of_nat (length l) * bound)
      (reduce_from (fun sum cost (_ : nat) => F64.add sum cost) k l (of_Z a)).
Proof.
  induction l as [|x l IH]; intros k a top Hb Ha Htop Hall.
  - exists a. split; [reflexivity|]. cbn [length]. lia.
  - apply Forall_cons in Hall as [(z & -> & Hz) Hall].
    cbn [reduce_from]. cbn [length] in Htop |- *.
    rewrite add64_int by lia.
    destruct (IH (S k) (a + z) (top + bound) Hb ltac:(lia) ltac:(lia) Hall)
      as (t & Ht & Hbound).
    exists t. split; [exact Ht|]. lia.
Qed.

Lemma F64_generateSpellData_lookup hours p (s : Spell) (m : Z) (i : nat) :
  (i < 12)%nat ->
  F64.generateSpellData hours p s m !! i =
  Some (if (i <? 6)%nat then F64.calculateMonthlyCost (hours_at hours i) None
        else if Z.of_nat i <? m then F64.calculateMonthlyCost p None
        else if Z.of_nat i =? m
             then F64.add (F64.add (tireCost s) (engineCost s))
                    (F64.calculateMonthlyCost p (Some (hourlyRate s)))
             else F64.calculateMonthlyCost p (Some (hourlyRate s))).
Proof.
  intros H. unfold F64.generateSpellData. rewrite list_lookup_imap.
  destruct (MONTHS_lookup i H) as [name ->]. reflexivity.
Qed.

Lemma F64_generateBaselineData_lookup hours p (i : nat) :
  (i < 12)%nat ->
  F64.generateBaselineData hours p !! i =
  Some (if (i <? 6)%nat then F64.calculateMonthlyCost (hours_at hours i) None
        else F64.calculateMonthlyCost p None).
Proof.
  intros H. unfold F64.generateBaselineData. rewrite list_lookup_imap.
  destruct (MONTHS_lookup i H) as [name ->]. reflexivity.
Qed.

Lemma F64_generateSpellData_length hours p (s : Spell) (m : Z) :
  length (F64.generateSpellData hours p s m) = 12%nat.
Proof. unfold F64.generateSpellData. rewrite length_imap. reflexivity. Qed.

Lemma F64_generateBaselineData_length hours p :
  length (F64.generateBaselineData hours p) = 12%nat.
Proof. unfold F64.generateBaselineData. rewrite length_imap. reflexivity. Qed.

Lemma hours_at_small (h : list number) (i : nat) :
  Forall small h -> (i < length h)%nat -> small (hours_at h i).
Proof.
  intros Hall Hi. destruct (lookup_lt_is_Some_2 h i Hi) as [x Hx].
  rewrite (hours_at_Some _ _ _ Hx).
  exact (proj1 (Forall_lookup small h) Hall i x Hx).
Qed.

Lemma int_upto_weaken (b b' : Z) (x : number) :
  b <= b' -> int_upto b x -> int_upto b' x.
Proof. intros H (n & -> & Hn). exists n. split; [reflexivity|lia]. Qed.

Lemma cost64_small_base (x : number) :
  small x -> int_upto 1000000000000 (F64.calculateMonthlyCost x None).
Proof.
  intros (a & -> & Ha). destruct (cost64_int_base a Ha) as [-> Hb].
  eexists. split; [reflexivity|exact Hb].
Qed.

Lemma cost64_small (x r : number) :
  small x -> small r ->
  int_upto 1000000000000 (F64.calculateMonthlyCost x (Some r)).
Proof.
  intros (a & -> & Ha) (b & -> & Hb).
  destruct (cost64_int a b Ha Hb) as [-> Hab].
  eexists. split; [reflexivity|exact Hab].
Qed.

Lemma F64_baseline_entries (h : list number) (p : number) :
  (6 <= length h)%nat -> Forall small h -> small p ->
  Forall (int_upto 1000002000000) (F64.generateBaselineData h p).
Proof.
  intros Hlen Hh Hp. apply Forall_lookup. intros i x Hx.
  assert (Hi : (i < 12)%nat).
  { rewrite <- (F64_generateBaselineData_length h p).
    eapply lookup_lt_Some; exact Hx. }
  rewrite F64_generateBaselineData_lookup in Hx by exact Hi.
  injection Hx as <-. apply (int_upto_weaken 1000000000000); [lia|].
  destruct (Nat.ltb_spec i 6).
  - apply cost64_small_base, hours_at_small; [exact Hh|lia].
  - apply cost64_small_base, Hp.
Qed.

Lemma F64_scenario_entries (h : list number) (p : number) (s : Spell)
    (m : Z) :
  (6 <= length h)%nat -> Forall small h -> small p -> small_spell s ->
  Forall (int_upto 1000002000000) (F64.generateSpellData h p s m).
Proof.
  intros Hlen Hh Hp (Ht & He & Hr). apply Forall_lookup. intros i x Hx.
  assert (Hi : (i < 12)%nat).
  { rewrite <- (F64_generateSpellData_length h p s m).
    eapply lookup_lt_Some; exact Hx. }
  rewrite F64_generateSpellData_lookup in Hx by exact Hi.
  injection Hx as <-.
  destruct (Nat.ltb_spec i 6).
  - apply (int_upto_weaken 1000000000000); [lia|].
    apply cost64_small_base, hours_at_small; [exact Hh|lia].
  - destruct (Z.of_nat i <? m).
    + apply (int_upto_weaken 1000000000000); [lia|].
      apply cost64_small_base, Hp.
    + destruct (cost64_small p (hourlyRate s) Hp Hr) as (c & -> & Hc).
      destruct (Z.of_nat i =? m).
      * destruct Ht as (t & -> & Ht). destruct He as (e & -> & He).
        rewrite !add64_int by lia. eexists. split; [reflexivity|lia].
      * exists c. split; [reflexivity|lia].
Qed.

Lemma F64_total_int (l : list number) :
  length l = 12%nat -> Forall (int_upto 1000002000000) l ->
  int_upto 12000024000000 (F64.total l).
Proof.
  intros Hlen Hall.
  destruct (total64_int 1000002000000 l 0%nat 0 0 ltac:(lia) ltac:(lia)
              ltac:(rewrite Hlen; cbn; lia) Hall) as (t & Ht & Hb).
  exists t. split; [exact Ht|]. rewrite Hlen in Hb. cbn in Hb. lia.
Qed.

Lemma F64_savings_finite (h : list number) (p : number) (c : SpellConfig) :
  (6 <= length h)%nat -> Forall small h -> small p ->
  small_spell (spell c) ->
  is_finite (savings (F64.calculateScenarioSavings h p c)).
Proof.
  intros Hlen Hh Hp Hs. cbn [F64.calculateScenarioSavings savings].
  destruct (F64_total_int (F64.generateBaselineData h p))
    as (b & -> & Hb);
    [apply F64_generateBaselineData_length
    |apply F64_baseline_entries; assumption|].
  destruct (F64_total_int
              (F64.generateSpellData h p (spell c) (month c)))
    as (t & -> & Ht);
    [apply F64_generateSpellData_length
    |apply F64_scenario_entries; assumption|].
  rewrite sub64_int by lia. exact I.
Qed.

(** ** Savings on small integers, in binary64 *)

(** Evaluates the twelve month tests of a binary64 series for a known
    month. *)
Ltac series_entries64 :=
  unfold F64.generateSpellData, F64.generateBaselineData, MONTHS;
  cbn [imap compose hours_at lookup list_lookup Nat.ltb Nat.leb];
  repeat match goal with
  | |- context [Z.of_nat ?n <? ?k] =>
      let b := eval vm_compute in (Z.of_nat n <? k) in
      change (Z.of_nat n <? k) with b
  | |- context [Z.of_nat ?n =? ?k] =>
      let b := eval vm_compute in (Z.of_nat n =? k) in
      change (Z.of_nat n =? k) with b
  end;
  cbv beta iota.

Lemma F64_savings_closed_form (h : list number) (pz : Z) (c : SpellConfig)
    (t e r : Z) :
  length h = 6%nat -> Forall small h -> 0 <= pz <= 1000000 ->
  tireCost (spell c) = of_Z t -> 0 <= t <= 1000000 ->
  engineCost (spell c) = of_Z e -> 0 <= e <= 1000000 ->
  hourlyRate (spell c) = of_Z r -> 0 <= r <= 1000000 ->
  6 <= month c <= 11 ->
  savings (F64.calculateScenarioSavings h (of_Z pz) c)
  = of_Z ((12 - month c) * (pz * 100 - pz * r) - (t + e)).
Proof.
  intros Hlen Hh Hp Ht Htb He Heb Hr Hrb Hm.
  destruct c as [s m i]. cbn [spell month] in *.
  destruct h as [|x0 [|x1 [|x2 [|x3 [|x4 [|x5 [|x6 h]]]]]]]; try discriminate.
  repeat match goal with
  | H : Forall small (_ :: _) |- _ => apply Forall_cons in H as [? H]
  end.
  repeat match goal with
  | H : small ?x |- _ => destruct H as (? & -> & ?)
  end.
  cbn [F64.calculateScenarioSavings savings spell month].
  destruct (cost64_int pz r Hp Hrb) as [ER HR].
  destruct (cost64_int_base pz Hp) as [EB HB].
  repeat match goal with
  | H : 0 <= ?a <= 1000000 |- _ =>
      lazymatch a with
      | pz => fail
      | t => fail
      | e => fail
      | r => fail
      | _ => let E := fresh "E" in let B := fresh "B" in
             destruct (cost64_int_base a H) as [E B]; revert H
      end
  end.
  intros.
  assert (Hcases : m = 6 \/ m = 7 \/ m = 8 \/ m = 9 \/ m = 10 \/ m = 11) by lia.
  destruct Hcases as [->|[->|[->|[->|[->| ->]]]]];
    series_entries64; rewrite Ht, He, Hr, ?ER, ?EB;
    repeat match goal with
    | E : F64.calculateMonthlyCost _ None = _ |- _ => rewrite E; clear E
    end;
    unfold F64.total, dense_reduce, reduce; cbn [reduce_from];
    repeat (rewrite add64_int by lia);
    rewrite sub64_int by lia;
    f_equal; lia.
Qed.

(** X11.  In binary64, for six historical hours, a prediction [p] and a
    spell with costs [t], [e] and rate [r] that are all integers from 0 to
    1000000, and a start month [m] from 6 to 11, the savings are exactly
    [(12 - m) * (p * 100 - p * r) - (t + e)]: the months run at the
    spell's rate, times the monthly gain, less the one-time cost; the
    historical hours do not enter. *)
Theorem savings_closed_form_binary64 (h : list number) (pz : Z)
    (c : SpellConfig) (t e r : Z) :
  length h = 6%nat -> Forall small h -> 0 <= pz <= 1000000 ->
  tireCost (spell c) = of_Z t -> 0 <= t <= 1000000 ->
  engineCost (spell c) = of_Z e -> 0 <= e <= 1000000 ->
  hourlyRate (spell c) = of_Z r -> 0 <= r <= 1000000 ->
  6 <= month c <= 11 ->
  savings (F64.calculateScenarioSavings h (of_Z pz) c)
  = of_Z ((12 - month c) * (pz * 100 - pz * r) - (t + e)).
Proof. apply F64_savings_closed_form. Qed.

Lemma INITIAL_DRIVING_HOURS_small : Forall small INITIAL_DRIVING_HOURS.
Proof.
  repeat constructor; (eexists; split; [reflexivity|lia]).
Qed.

Lemma savings_closed_form_binary64_witness :
  savings (F64.calculateScenarioSavings INITIAL_DRIVING_HOURS (of_Z 76)
             {| spell := SPELL_OPTIONS TIRE; month := 9; id := 0 |})
  = of_Z ((12 - 9) * (76 * 100 - 76 * 93) - (10 + 0)).
Proof.
  apply (savings_closed_form_binary64 INITIAL_DRIVING_HOURS 76
           {| spell := SPELL_OPTIONS TIRE; month := 9; id := 0 |} 10 0 93).
  - reflexivity.
  - apply INITIAL_DRIVING_HOURS_small.
  - lia.
  - reflexivity.
  - lia.
  - reflexivity.
  - lia.
  - reflexivity.
  - lia.
  - cbn. lia.
Defined.

Lemma ge_of_Z (a b : Z) : b <= a -> (of_Z a >=? of_Z b)%js = true.
Proof. intros H. apply ge_Fin. rewrite <- Zle_Qle. exact H. Qed.

(** X12.  In binary64, for integer hours, prediction and spell fields from
    0 to 1000000 and a rate that does not exceed the base rate 100,
    starting the same spell one month later, from month 6 to month 10,
    never saves more. *)
Theorem later_start_saves_no_more_binary64 (h : list number) (pz : Z)
    (c : SpellConfig) (t e r : Z) :
  length h = 6%nat -> Forall small h -> 0 <= pz <= 1000000 ->
  tireCost (spell c) = of_Z t -> 0 <= t <= 1000000 ->
  engineCost (spell c) = of_Z e -> 0 <= e <= 1000000 ->
  hourlyRate (spell c) = of_Z r -> 0 <= r <= 100 ->
  6 <= month c < 11 ->
  (savings (F64.calculateScenarioSavings h (of_Z pz) c)
   >=? savings (F64.calculateScenarioSavings h (of_Z pz)
                  {| spell := spell c; month := month c + 1; id := id c |}))%js
  = true.
Proof.
  intros Hlen Hh Hp Ht Htb He Heb Hr Hrb Hm.
  rewrite (F64_savings_closed_form h pz c t e r) by (assumption || lia).
  rewrite (F64_savings_closed_form h pz
             {| spell := spell c; month := month c + 1; id := id c |} t e r)
    by (assumption || (cbn [month]; lia) || lia).
  cbn [month]. apply ge_of_Z. nia.
Qed.

Lemma later_start_saves_no_more_binary64_witness :
  (savings (F64.calculateScenarioSavings INITIAL_DRIVING_HOURS (of_Z 76)
              {| spell := SPELL_OPTIONS ENGINE; month := 7; id := 0 |})
   >=? savings (F64.calculateScenarioSavings INITIAL_DRIVING_HOURS (of_Z 76)
                  {| spell := SPELL_OPTIONS ENGINE; month := 7 + 1; id := 0 |}))%js
  = true.
Proof.
  apply (later_start_saves_no_more_binary64 INITIAL_DRIVING_HOURS 76
           {| spell := SPELL_OPTIONS ENGINE; month := 7; id := 0 |} 0 32 83).
  - reflexivity.
  - apply INITIAL_DRIVING_HOURS_small.
  - lia.
  - reflexivity.
  - lia.
  - reflexivity.
  - lia.
  - reflexivity.
  - lia.
  - cbn. lia.
Defined.

(** X19.  [ENGINE] and [BOTH] have the same hourly rate and [BOTH] costs
    10 more at once, so in binary64, for integer hours and prediction from
    0 to 1000000 and the same start month from 6 to 11, the [BOTH]
    scenario saves exactly 10 less than the [ENGINE] scenario. *)
Theorem both_saves_ten_less_binary64 (h : list number) (pz : Z) (m i j : Z) :
  length h = 6%nat -> Forall small h -> 0 <= pz <= 1000000 ->
  6 <= m <= 11 ->
  exists z : Z,
    savings (F64.calculateScenarioSavings h (of_Z pz)
               {| spell := SPELL_OPTIONS ENGINE; month := m; id := i |})
    = of_Z z
    /\ savings (F64.calculateScenarioSavings h (of_Z pz)
                  {| spell := SPELL_OPTIONS BOTH; month := m; id := j |})
       = of_Z (z - 10).
Proof.
  intros Hlen Hh Hp Hm.
  rewrite (F64_savings_closed_form h pz
             {| spell := SPELL_OPTIONS ENGINE; month := m; id := i |} 0 32 83)
    by (assumption || reflexivity || lia).
  rewrite (F64_savings_closed_form h pz
             {| spell := SPELL_OPTIONS BOTH; month := m; id := j |} 10 32 83)
    by (assumption || reflexivity || lia).
  cbn [month]. eexists. split; [reflexivity|]. f_equal. lia.
Qed.

Lemma both_saves_ten_less_binary64_witness :
  exists z : Z,
    savings (F64.calculateScenarioSavings INITIAL_DRIVING_HOURS (of_Z 76)
               {| spell := SPELL_OPTIONS ENGINE; month := 8; id := 1 |})
    = of_Z z
    /\ savings (F64.calculateScenarioSavings INITIAL_DRIVING_HOURS (of_Z 76)
                  {| spell := SPELL_OPTIONS BOTH; month := 8; id := 2 |})
       = of_Z (z - 10).
Proof.
  apply both_saves_ten_less_binary64.
  - reflexivity.
  - apply INITIAL_DRIVING_HOURS_small.
  - lia.
  - lia.
Defined.

(** ** The recommendation in binary64 *)

Lemma F64_recommended_is_scenario (h : list number) (p : number)
    (l : list SpellConfig) (r : Recommended) :
  F64.getRecommendedScenario h p l = Some r ->
  exists c : SpellConfig,
    c ∈ l
    /\ best r = F64.calculateScenarioSavings h p c
    /\ best_description r = snd (F64.describe h p c)
    /\ recommendation r
       = if (savings (best r) >? of_Z 0)%js
         then best_description r
              +:+ " provides the highest savings of "
              +:+ toFixed (savings (best r)) 2
              +:+ " gold coins with an ROI of "
              +:+ toFixed (roi (best r)) 1 +:+ "%"
         else "None of the current scenarios provide cost savings.".
Proof.
  intros Hr. unfold F64.getRecommendedScenario in Hr.
  destruct l as [|c0 cs]; [discriminate|].
  cbn [fmap list_fmap] in Hr. injection Hr as <-.
  cbn [best best_description recommendation].
  unfold dense_reduce.
  match goal with
  | |- context [reduce ?f ?xs ?init] => set (b := reduce f xs init)
  end.
  assert (Hb : exists c, c ∈ c0 :: cs /\ b = F64.describe h p c).
  { destruct (reduce_from_pick_elem
                (fun current best0 : Analysis * string =>
                   (savings (fst current) >? savings (fst best0))%js)
                (F64.describe h p c0 :: (F64.describe h p <$> cs))
                (F64.describe h p c0) 0%nat) as [H|H].
    - exists c0. split; [apply list_elem_of_here|exact H].
    - change (F64.describe h p c0 :: (F64.describe h p <$> cs))
        with (F64.describe h p <$> c0 :: cs) in H.
      apply list_elem_of_fmap in H as (c & Hc & Hin). exists c. auto. }
  destruct Hb as (c & Hin & Hc). exists c. rewrite Hc.
  split; [exact Hin|]. repeat split; reflexivity.
Qed.

Lemma F64_recommended_dominates (h : list number) (p : number)
    (l : list SpellConfig) (r : Recommended) :
  (6 <= length h)%nat -> Forall small h -> small p ->
  Forall (fun c => small_spell (spell c)) l ->
  F64.getRecommendedScenario h p l = Some r ->
  is_finite (savings (best r))
  /\ forall c : SpellConfig, c ∈ l ->
       (savings (best r) >=? savings (F64.calculateScenarioSavings h p c))%js
       = true.
Proof.
  intros Hlen Hh Hp Hspells Hr.
  destruct (F64_recommended_is_scenario h p l r Hr) as (cb & Hcb & Hbest & _).
  split.
  { rewrite Hbest. apply F64_savings_finite; try assumption.
    exact (proj1 (Forall_forall _ _) Hspells cb Hcb). }
  unfold F64.getRecommendedScenario in Hr.
  destruct l as [|c0 cs]; [discriminate|].
  cbn [fmap list_fmap] in Hr. injection Hr as <-. cbn [best].
  unfold dense_reduce.
  assert (Hfin : Forall (fun x : Analysis * string => is_finite (savings (fst x)))
                   (F64.describe h p c0 :: (F64.describe h p <$> cs))).
  { change (F64.describe h p c0 :: (F64.describe h p <$> cs))
      with (F64.describe h p <$> c0 :: cs).
    apply Forall_fmap. eapply Forall_impl; [exact Hspells|].
    intros c Hc. unfold compose. cbn [F64.describe fst].
    apply F64_savings_finite; assumption. }
  destruct (reduce_pick_first (fun x : Analysis * string => savings (fst x))
              (F64.describe h p c0) (F64.describe h p <$> cs) Hfin)
    as (i & _ & Hdom & _).
  change (F64.describe h p c0 :: (F64.describe h p <$> cs))
    with (F64.describe h p <$> c0 :: cs) in Hdom.
  rewrite Forall_fmap in Hdom.
  intros c Hc. exact (proj1 (Forall_forall _ _) Hdom c Hc).
Qed.

Lemma catalog_small (key : SpellKey) : small_spell (SPELL_OPTIONS key).
Proof.
  destruct key; repeat split; (eexists; split; [reflexivity|lia]).
Qed.

(** X14.  In binary64, for integer hours, prediction and spell fields
    from 0 to 1000000, as those of the component and its catalog are, the
    "Total Savings" figure is at least the savings of every selected
    scenario. *)
Theorem costDifference_dominates_binary64 (h : list number) (p : number)
    (l : list SpellConfig) (c : SpellConfig) :
  (6 <= length h)%nat -> Forall small h -> small p ->
  Forall (fun c => small_spell (spell c)) l -> c ∈ l ->
  (F64.costDifference h p l
   >=? savings (F64.calculateScenarioSavings h p c))%js
  = true.
Proof.
  intros Hlen Hh Hp Hspells Hc.
  destruct (F64.getRecommendedScenario h p l) as [r|] eqn:Hr.
  - destruct (F64_recommended_is_scenario h p l r Hr) as (cb & _ & Hbest & _).
    assert (E : F64.costDifference h p l = savings (best r)).
    { unfold F64.costDifference. rewrite Hr, Hbest.
      cbn [F64.calculateScenarioSavings spellConfig savings]. reflexivity. }
    rewrite E.
    apply (proj2 (F64_recommended_dominates h p l r Hlen Hh Hp Hspells Hr) c Hc).
  - destruct l as [|c0 cs]; [inversion Hc|discriminate].
Qed.

Lemma costDifference_dominates_binary64_witness :
  let l := [ {| spell := SPELL_OPTIONS TIRE; month := 6; id := 1 |};
             {| spell := SPELL_OPTIONS BOTH; month := 8; id := 2 |} ] in
  (F64.costDifference INITIAL_DRIVING_HOURS (of_Z 76) l
   >=? savings (F64.calculateScenarioSavings INITIAL_DRIVING_HOURS (of_Z 76)
                  {| spell := SPELL_OPTIONS TIRE; month := 6; id := 1 |}))%js
  = true.
Proof.
  intros l. apply costDifference_dominates_binary64.
  - cbn. lia.
  - apply INITIAL_DRIVING_HOURS_small.
  - eexists. split; [reflexivity|lia].
  - repeat constructor; apply catalog_small.
  - apply list_elem_of_here.
Defined.

(** X15.  In binary64, for integer hours, prediction and spell fields
    from 0 to 1000000: if no selected scenario has positive savings the
    recommendation reads "None of the current scenarios provide cost
    savings."; if some scenario has, the recommendation names the best
    scenario with its savings and its return on investment as the code
    prints them. *)
Theorem recommendation_text_binary64 (h : list number) (p : number)
    (l : list SpellConfig) (r : Recommended) :
  (6 <= length h)%nat -> Forall small h -> small p ->
  Forall (fun c => small_spell (spell c)) l ->
  F64.getRecommendedScenario h p l = Some r ->
  ((forall c, c ∈ l ->
      (savings (F64.calculateScenarioSavings h p c) >? of_Z 0)%js = false) ->
   recommendation r = "None of the current scenarios provide cost savings.")
  /\ (forall c, c ∈ l ->
        (savings (F64.calculateScenarioSavings h p c) >? of_Z 0)%js = true ->
        recommendation r
        = best_description r +:+ " provides the highest savings of "
          +:+ toFixed (savings (best r)) 2 +:+ " gold coins with an ROI of "
          +:+ toFixed (roi (best r)) 1 +:+ "%").
Proof.
  intros Hlen Hh Hp Hspells Hr.
  destruct (F64_recommended_is_scenario h p l r Hr)
    as (cb & Hcb & Hbest & _ & Htext).
  destruct (F64_recommended_dominates h p l r Hlen Hh Hp Hspells Hr)
    as [Hfin Hdom].
  split.
  - intros Hnone. rewrite Htext, Hbest, (Hnone cb Hcb). reflexivity.
  - intros c Hc Hpos. rewrite Htext.
    rewrite (ge_gt_trans (savings (best r))
               (savings (F64.calculateScenarioSavings h p c)) (of_Z 0));
      trivial.
    + apply F64_savings_finite; try assumption.
      exact (proj1 (Forall_forall _ _) Hspells c Hc).
    + exact I.
    + apply Hdom. exact Hc.
Qed.

Lemma recommendation_text_binary64_witness :
  let l := [ {| spell := SPELL_OPTIONS NONE; month := 6; id := 1 |};
             {| spell := SPELL_OPTIONS BOTH; month := 6; id := 2 |} ] in
  exists r,
    F64.getRecommendedScenario INITIAL_DRIVING_HOURS (of_Z 76) l = Some r
    /\ recommendation r
       = "Both Spells in July provides the highest savings of 7710.00 gold coins with an ROI of 18357.1%"%string.
Proof.
  intros l.
  destruct (F64.getRecommendedScenario INITIAL_DRIVING_HOURS (of_Z 76) l)
    as [r|] eqn:Hr; [|discriminate].
  exists r. split; [reflexivity|].
  rewrite (proj2 (recommendation_text_binary64 INITIAL_DRIVING_HOURS
                    (of_Z 76) l r ltac:(cbn; lia) INITIAL_DRIVING_HOURS_small
                    ltac:(eexists; split; [reflexivity|lia])
                    ltac:(repeat constructor; apply catalog_small) Hr)
             {| spell := SPELL_OPTIONS BOTH; month := 6; id := 2 |}
             ltac:(apply list_elem_of_further, list_elem_of_here)
             ltac:(vm_compute; reflexivity)).
  vm_compute in Hr. injection Hr as <-. vm_compute. reflexivity.
Defined.

(** ** Where rounding and overflow show *)

(** Three hours of 3927410328586877 are forecast one above their own
    value, and with hours of [1e15] the one-time cost of a spell is lost
    in the totals: [ENGINE] and [BOTH] then save the same. *)
Example rounding_shows :
  F64.predictFutureHours
    (F64.array_of (replicate 3 (of_Z 3927410328586877)))
  = Return (of_Z 3927410328586878)
  /\ savings (F64.calculateScenarioSavings
               (replicate 6 (of_Z 1000000000000000)) (of_Z 76)
               {| spell := SPELL_OPTIONS BOTH; month := 6; id := 0 |})
     = of_Z 7552
  /\ savings (F64.calculateScenarioSavings
               (replicate 6 (of_Z 1000000000000000)) (of_Z 76)
               {| spell := SPELL_OPTIONS ENGINE; month := 6; id := 0 |})
     = of_Z 7552.
Proof. repeat split; vm_compute; reflexivity. Qed.

(** A spell with costs 16.585 and 45.724 at the base rate saves, with the
    hours and the prediction of the component, a little more when it
    starts in month 10 than when it starts in month 9. *)
Example later_start_can_save_more :
  let s := {| label := ""; tireCost := F64.lit (16585 # 1000);
              engineCost := F64.lit (45724 # 1000); hourlyRate := of_Z 100;
              description := ""; efficiency := of_Z 1 |} in
  (savings (F64.calculateScenarioSavings INITIAL_DRIVING_HOURS (of_Z 76)
              {| spell := s; month := 10; id := 0 |})
   >? savings (F64.calculateScenarioSavings INITIAL_DRIVING_HOURS (of_Z 76)
                 {| spell := s; month := 9; id := 0 |}))%js = true.
Proof. vm_compute. reflexivity. Qed.

(** Finite costs can overflow: a spell with costs [-1e308] and [-1e308]
    has savings [NaN], and listed first it stays the recommended one. *)
Example overflow_hides_the_best :
  let s := {| label := ""; tireCost := F64.lit (inject_Z (- 10 ^ 308));
              engineCost := F64.lit (inject_Z (- 10 ^ 308));
              hourlyRate := F64.lit (inject_Z (10 ^ 307));
              description := ""; efficiency := of_Z 1 |} in
  (savings ∘ best) <$>
    F64.getRecommendedScenario INITIAL_DRIVING_HOURS (of_Z 76)
      [ {| spell := s; month := 6; id := 1 |};
        {| spell := SPELL_OPTIONS BOTH; month := 6; id := 2 |} ]
  = Some NaN.
Proof. vm_compute. reflexivity. Qed.
